(** * VOS document review: the review page and its API client

    A shallow embedding of the TypeScript front end of VOS (the API client
    lib/api.ts, the document page app/documents/[id]/page.tsx and the
    PersonaPanel component), with the properties of the review stream
    consumer, the comment list, the persona selection and the meta-review
    read and write paths.  The back end is not part of the embedding; where
    a property depends on it, it is modelled from its design and marked so.

    Conventions of the embedding:
    - a JS [string] is a [string]; [string | null] and optional fields are
      [option string]; JS truthiness of such a value is [truthy];
    - line numbers are JS numbers holding integers, modelled as [Z];
    - React state is a record [PageState]; every [setX] call is a record
      update and every handler is a function on [PageState];
    - a JS [Map] used through [get]/[set]/[has] is a [gmap];
    - an awaited call either returns or throws: [Outcome]. *)

From Stdlib Require Import ZArith List String Ascii Bool Permutation Sorted Lia.
From stdpp Require Import gmap strings list.
Import ListNotations.

Local Open Scope Z_scope.
Local Open Scope string_scope.

(** ** Data model (frontend/lib/api.ts) *)

Record Document := mkDocument {
  doc_id : string;
  doc_title : string;
  doc_description : option string;
  doc_content : string;
  doc_is_archived : bool;
  doc_created_at : string;
  doc_updated_at : string;
  doc_review_count : Z
}.

Record Persona := mkPersona {
  p_id : string;
  p_name : string;
  p_description : option string;
  p_system_prompt : string;
  p_tone : string;
  p_focus_areas : list string;
  p_color : string
}.

Record Comment := mkComment {
  c_id : string;
  c_content : string;
  persona_id : string;
  persona_name : string;
  persona_color : string;
  start_line : Z;
  end_line : Z;
  c_created_at : string
}.

Record ReviewSummary := mkReviewSummary {
  r_id : string;
  r_document_id : string;
  r_persona_ids : list string;
  r_status : string;
  r_created_at : string;
  r_completed_at : option string;
  r_comment_count : Z
}.

(** [PersonaStatus.status] is declared ['queued' | 'running' | 'completed'],
    but the only producer of these records, [doReview], fills the field with
    [event.status as ...]: a cast that is erased at run time.  The field
    therefore holds whatever the event carried, which is [string | undefined];
    the same goes for the three fields filled through [!]. *)
Record PersonaStatus := mkPersonaStatus {
  ps_persona_id : option string;
  ps_persona_name : option string;
  ps_persona_color : option string;
  ps_status : option string
}.

Record MetaCommentSource := mkSource {
  src_persona_id : string;
  src_persona_name : string;
  src_persona_color : string;
  original_content : string
}.

Record MetaComment := mkMetaComment {
  mc_id : string;
  mc_content : string;
  mc_start_line : Z;
  mc_end_line : Z;
  sources : list MetaCommentSource;
  category : string;
  priority : string;
  mc_created_at : string
}.

(** ** JavaScript primitives used by the page *)

(** Truthiness of a [string | null] value: [null] and the empty string are
    falsy. *)
Definition truthy (o : option string) : bool :=
  match o with
  | Some s => negb (String.eqb s "")
  | None => false
  end.

(** [Array.prototype.includes] on an array of strings. *)
Definition includes (id : string) (l : list string) : bool :=
  existsb (String.eqb id) l.

(** [Array.prototype.sort] with a comparator: the sort is stable
    (ECMAScript 2019), an element [x] is placed before [y] when
    [cmp x y <= 0] and [x] came first.  Modelled by a stable insertion
    sort. *)
Section ArraySort.
Context {A : Type} (cmp : A -> A -> Z).

Fixpoint sort_insert (x : A) (l : list A) : list A :=
  match l with
  | [] => [x]
  | y :: l' => if (cmp x y <=? 0)%Z then x :: y :: l' else y :: sort_insert x l'
  end.

Fixpoint Array_sort (l : list A) : list A :=
  match l with
  | [] => []
  | x :: l' => sort_insert x (Array_sort l')
  end.
End ArraySort.

(** ** Persona selection *)

(** [togglePersona] of page.tsx, as the state updater passed to
    [setSelectedPersonaIds]; PersonaPanel.tsx has the same body on its
    [selectedIds] prop. *)
Definition togglePersona (id : string) (prev : list string) : list string :=
  if includes id prev
  then List.filter (fun p => negb (String.eqb p id)) prev
  else (prev ++ [id])%list.

(** ** The comment list *)

(** [c => !filterPersona || c.persona_id === filterPersona] *)
Definition passesFilter (filterPersona : option string) (c : Comment) : bool :=
  negb (truthy filterPersona) ||
  match filterPersona with
  | Some f => String.eqb (persona_id c) f
  | None => false
  end.

(** [(a, b) => a.start_line - b.start_line] *)
Definition byStartLine (a b : Comment) : Z := start_line a - start_line b.

(** [[...comments].filter(...).sort(...)], the same in both versions of
    the page. *)
Definition sortedComments (comments : list Comment) (filterPersona : option string)
  : list Comment :=
  Array_sort byStartLine (List.filter (passesFilter filterPersona) comments).

Definition byMetaStartLine (a b : MetaComment) : Z := mc_start_line a - mc_start_line b.

Definition sortedMetaComments (metaComments : list MetaComment) : list MetaComment :=
  Array_sort byMetaStartLine metaComments.

(** [String.prototype.split('\n')]: the pieces between line feeds; the
    result is never empty. *)
Definition LF : ascii := ascii_of_nat 10.

Fixpoint split_nl (s : string) : list string :=
  match s with
  | EmptyString => [EmptyString]
  | String c s' =>
      if Ascii.eqb c LF then EmptyString :: split_nl s'
      else match split_nl s' with
           | [] => [String c EmptyString]
           | l :: ls => String c l :: ls
           end
  end.

(** [s.slice(n)] for [n >= 0]. *)
Fixpoint slice (n : nat) (s : string) : string :=
  match n, s with
  | O, _ => s
  | S n', String _ s' => slice n' s'
  | S _, EmptyString => EmptyString
  end.

(** A thrown value: whether it is an [instanceof Error], and the [name] and
    [message] it then has. *)
Record JsError := mkJsError {
  err_instanceof_Error : bool;
  err_name : string;
  err_message : string
}.

(** [new Error(msg)] *)
Definition Error (msg : string) : JsError := mkJsError true "Error" msg.

(** The rejection of a fetch or of a body read whose signal was aborted. *)
Definition AbortError : JsError :=
  mkJsError true "AbortError" "The operation was aborted.".

(** The result of an awaited call. *)
Inductive Outcome (A : Type) : Type :=
| Returned (a : A)
| Thrown (e : JsError).
Arguments Returned {A} a.
Arguments Thrown {A} e.

(** ** Events of the review stream *)

(** The parameter type of [onEvent] in [startReviewStream]. *)
Record StreamEvent := mkStreamEvent {
  ev_type : string;
  ev_persona_id : option string;
  ev_persona_name : option string;
  ev_persona_color : option string;
  ev_status : option string;
  ev_comment : option Comment;
  ev_total_comments : option Z;
  ev_review_id : option string
}.

Definition personaStatusEvent (pid name color status : string) : StreamEvent :=
  mkStreamEvent "persona_status" (Some pid) (Some name) (Some color) (Some status)
                None None None.

Definition commentEvent (c : Comment) : StreamEvent :=
  mkStreamEvent "comment" None None None None (Some c) None None.

Definition doneEvent (reviewId : string) (total : Z) : StreamEvent :=
  mkStreamEvent "done" None None None None None (Some total) (Some reviewId).

Definition errorEvent : StreamEvent :=
  mkStreamEvent "error" None None None None None None None.

(** ** State of [DocumentDetailPage] *)

Inductive ViewMode := meta | individual.

(** The [useState] cells of the page that carry data; the cells that only
    track hovering and the connector overlay ([activeCommentId],
    [expandedMetaId], [hoveredPersonaId], [connectorLines]) are left out. *)
Record PageState := mkPageState {
  document : option Document;
  personas : list Persona;
  selectedPersonaIds : list string;
  comments : list Comment;
  personaStatuses : gmap (option string) PersonaStatus;
  isReviewing : bool;
  error : option string;
  showPersonaPanel : bool;
  filterPersona : option string;
  viewMode : ViewMode;
  metaComments : list MetaComment;
  isSynthesizing : bool;
  currentReviewId : option string
}.

(** [useState] initial values. *)
Definition initialState : PageState :=
  mkPageState None [] [] [] ∅ false None false None meta [] false None.

Definition setDocument (v : option Document) (s : PageState) : PageState :=
  mkPageState v (personas s) (selectedPersonaIds s) (comments s) (personaStatuses s)
    (isReviewing s) (error s) (showPersonaPanel s) (filterPersona s) (viewMode s)
    (metaComments s) (isSynthesizing s) (currentReviewId s).

Definition setPersonas (v : list Persona) (s : PageState) : PageState :=
  mkPageState (document s) v (selectedPersonaIds s) (comments s) (personaStatuses s)
    (isReviewing s) (error s) (showPersonaPanel s) (filterPersona s) (viewMode s)
    (metaComments s) (isSynthesizing s) (currentReviewId s).

Definition setSelectedPersonaIds (v : list string) (s : PageState) : PageState :=
  mkPageState (document s) (personas s) v (comments s) (personaStatuses s)
    (isReviewing s) (error s) (showPersonaPanel s) (filterPersona s) (viewMode s)
    (metaComments s) (isSynthesizing s) (currentReviewId s).

Definition setComments (v : list Comment) (s : PageState) : PageState :=
  mkPageState (document s) (personas s) (selectedPersonaIds s) v (personaStatuses s)
    (isReviewing s) (error s) (showPersonaPanel s) (filterPersona s) (viewMode s)
    (metaComments s) (isSynthesizing s) (currentReviewId s).

Definition setPersonaStatuses (v : gmap (option string) PersonaStatus) (s : PageState)
  : PageState :=
  mkPageState (document s) (personas s) (selectedPersonaIds s) (comments s) v
    (isReviewing s) (error s) (showPersonaPanel s) (filterPersona s) (viewMode s)
    (metaComments s) (isSynthesizing s) (currentReviewId s).

Definition setIsReviewing (v : bool) (s : PageState) : PageState :=
  mkPageState (document s) (personas s) (selectedPersonaIds s) (comments s)
    (personaStatuses s) v (error s) (showPersonaPanel s) (filterPersona s) (viewMode s)
    (metaComments s) (isSynthesizing s) (currentReviewId s).

Definition setError (v : option string) (s : PageState) : PageState :=
  mkPageState (document s) (personas s) (selectedPersonaIds s) (comments s)
    (personaStatuses s) (isReviewing s) v (showPersonaPanel s) (filterPersona s)
    (viewMode s) (metaComments s) (isSynthesizing s) (currentReviewId s).

Definition setShowPersonaPanel (v : bool) (s : PageState) : PageState :=
  mkPageState (document s) (personas s) (selectedPersonaIds s) (comments s)
    (personaStatuses s) (isReviewing s) (error s) v (filterPersona s) (viewMode s)
    (metaComments s) (isSynthesizing s) (currentReviewId s).

Definition setFilterPersona (v : option string) (s : PageState) : PageState :=
  mkPageState (document s) (personas s) (selectedPersonaIds s) (comments s)
    (personaStatuses s) (isReviewing s) (error s) (showPersonaPanel s) v (viewMode s)
    (metaComments s) (isSynthesizing s) (currentReviewId s).

Definition setViewMode (v : ViewMode) (s : PageState) : PageState :=
  mkPageState (document s) (personas s) (selectedPersonaIds s) (comments s)
    (personaStatuses s) (isReviewing s) (error s) (showPersonaPanel s) (filterPersona s)
    v (metaComments s) (isSynthesizing s) (currentReviewId s).

Definition setMetaComments (v : list MetaComment) (s : PageState) : PageState :=
  mkPageState (document s) (personas s) (selectedPersonaIds s) (comments s)
    (personaStatuses s) (isReviewing s) (error s) (showPersonaPanel s) (filterPersona s)
    (viewMode s) v (isSynthesizing s) (currentReviewId s).

Definition setIsSynthesizing (v : bool) (s : PageState) : PageState :=
  mkPageState (document s) (personas s) (selectedPersonaIds s) (comments s)
    (personaStatuses s) (isReviewing s) (error s) (showPersonaPanel s) (filterPersona s)
    (viewMode s) (metaComments s) v (currentReviewId s).

Definition setCurrentReviewId (v : option string) (s : PageState) : PageState :=
  mkPageState (document s) (personas s) (selectedPersonaIds s) (comments s)
    (personaStatuses s) (isReviewing s) (error s) (showPersonaPanel s) (filterPersona s)
    (viewMode s) (metaComments s) (isSynthesizing s) v.

(** ** Handlers of [DocumentDetailPage] *)

(** The state resets at the head of [doReview] (the abort of the previous
    stream and the start of the new one are in [Stream] below). *)
Definition doReview_reset (s : PageState) : PageState :=
  setViewMode individual
    (setCurrentReviewId None
      (setShowPersonaPanel false
        (setPersonaStatuses ∅
          (setMetaComments []
            (setComments []
              (setIsReviewing true s)))))).

(** The record stored by [next.set(event.persona_id!, {...})]. *)
Definition statusOfEvent (ev : StreamEvent) : PersonaStatus :=
  mkPersonaStatus (ev_persona_id ev) (ev_persona_name ev) (ev_persona_color ev)
                  (ev_status ev).

(** The [onEvent] callback that [doReview] passes to [startReviewStream]:
    three independent [if]s on [event.type].  On [done] with a truthy
    [review_id] it calls [triggerMetaSynthesis], whose synchronous part is
    [setIsSynthesizing(true)]; the second component is the review id of the
    synthesis request that is then in flight. *)
Definition onEvent (ev : StreamEvent) (s : PageState) : PageState * option string :=
  let s1 :=
    if String.eqb (ev_type ev) "persona_status"
    then setPersonaStatuses
           (<[ev_persona_id ev := statusOfEvent ev]> (personaStatuses s)) s
    else s in
  let s2 :=
    match ev_comment ev with
    | Some c =>
        if String.eqb (ev_type ev) "comment"
        then setComments (comments s1 ++ [c])%list s1
        else s1
    | None => s1
    end in
  if String.eqb (ev_type ev) "done"
  then
    let s3 := setIsReviewing false s2 in
    if truthy (ev_review_id ev)
    then (setIsSynthesizing true (setCurrentReviewId (ev_review_id ev) s3),
          ev_review_id ev)
    else (s3, None)
  else (s2, None).

(** The [onError] callback of [doReview]. *)
Definition onError (err : JsError) (s : PageState) : PageState :=
  setIsReviewing false (setError (Some (err_message err)) s).

(** The rest of [triggerMetaSynthesis] once [synthesizeMetaReview] has
    settled: the [try] body on a result, the empty [catch] on a throw, and
    the [finally] in both cases. *)
Definition metaSynthesisSettled (out : Outcome (list MetaComment)) (s : PageState)
  : PageState :=
  match out with
  | Returned result => setIsSynthesizing false (setViewMode meta (setMetaComments result s))
  | Thrown _ => setIsSynthesizing false s
  end.

(** Whether [onEvent] stores the event under the key [pid]:
    [event.type === 'persona_status'] with [event.persona_id] that key. *)
Definition statusEventFor (pid : option string) (ev : StreamEvent) : bool :=
  String.eqb (ev_type ev) "persona_status" && bool_decide (ev_persona_id ev = pid).

(** The state after a sequence of [onEvent] calls. *)
Definition consume (evs : list StreamEvent) (s : PageState) : PageState :=
  fold_left (fun acc ev => fst (onEvent ev acc)) evs s.

(** ** Line highlights *)

Record Highlight := mkHighlight {
  commentId : string;
  color : string
}.

Definition PRIORITY_COLORS : gmap string string :=
  <["critical" := "#ef4444"]>
    (<["high" := "#f97316"]>
      (<["medium" := "#eab308"]>
        (<["low" := "#6b7280"]> ∅))).

(** [PRIORITY_COLORS[p] || PRIORITY_COLORS.medium] *)
Definition priorityColor (p : string) : string :=
  match PRIORITY_COLORS !! p with
  | Some c => c
  | None => "#eab308"
  end.

(** [if (!highlights.has(line)) highlights.set(line, []);
     highlights.get(line)!.push(h)] *)
Definition pushHighlight (line : Z) (h : Highlight) (m : gmap Z (list Highlight))
  : gmap Z (list Highlight) :=
  <[line := (default [] (m !! line) ++ [h])%list]> m.

(** [for (let line = s; line <= e; line++) push]: [n] iterations from
    [line]. *)
Fixpoint forLines (n : nat) (line : Z) (h : Highlight) (m : gmap Z (list Highlight))
  : gmap Z (list Highlight) :=
  match n with
  | O => m
  | S n' => forLines n' (line + 1) h (pushHighlight line h m)
  end.

(** The loop runs [e - s + 1] times, and not at all when [e < s]. *)
Definition highlightRange (s e : Z) (h : Highlight) (m : gmap Z (list Highlight))
  : gmap Z (list Highlight) :=
  forLines (Z.to_nat (e - s + 1)) s h m.

Definition highlightComment (m : gmap Z (list Highlight)) (c : Comment)
  : gmap Z (list Highlight) :=
  highlightRange (start_line c) (end_line c)
                 (mkHighlight (c_id c) (persona_color c)) m.

Definition highlightMeta (m : gmap Z (list Highlight)) (mc : MetaComment)
  : gmap Z (list Highlight) :=
  highlightRange (mc_start_line mc) (mc_end_line mc)
                 (mkHighlight (mc_id mc) (priorityColor (priority mc))) m.

(** [lineHighlights()] *)
Definition lineHighlights (s : PageState) : gmap Z (list Highlight) :=
  match viewMode s, metaComments s with
  | meta, _ :: _ => fold_left highlightMeta (metaComments s) ∅
  | _, _ =>
      let filtered :=
        if truthy (filterPersona s)
        then List.filter
               (fun c => match filterPersona s with
                         | Some f => String.eqb (persona_id c) f
                         | None => false
                         end) (comments s)
        else comments s in
      fold_left highlightComment filtered ∅
  end.

(** ** What the page renders *)

(** One row of the document panel: [highlights.get(idx) || []]. *)
Record LineView := mkLineView {
  lv_index : nat;
  lv_text : string;
  lv_highlights : list Highlight
}.

(** The list of the comments panel in either view mode. *)
Inductive Panel :=
| MetaPanel (items : list MetaComment)
| IndividualPanel (items : list Comment).

(** The three returns of the component: the error panel, the loading
    skeleton and the review screen. *)
Inductive View :=
| ErrorView (msg : string)
| LoadingView
| MainView (lines : list LineView) (panel : Panel).

(** [document?.content?.split('\n') || []] for a loaded document. *)
Definition contentLines (d : Document) : list string := split_nl (doc_content d).

Definition renderLines (s : PageState) (d : Document) : list LineView :=
  imap (fun idx line =>
          mkLineView idx line (default [] (lineHighlights s !! Z.of_nat idx)))
       (contentLines d).

Definition renderPanel (s : PageState) : Panel :=
  match viewMode s with
  | meta => MetaPanel (sortedMetaComments (metaComments s))
  | individual => IndividualPanel (sortedComments (comments s) (filterPersona s))
  end.

Definition render (s : PageState) : View :=
  if truthy (error s) then ErrorView (default "" (error s))
  else match document s with
       | None => LoadingView
       | Some d => MainView (renderLines s d) (renderPanel s)
       end.

(** The per-persona comments a view shows. *)
Definition displayedComments (v : View) : list Comment :=
  match v with
  | MainView _ (IndividualPanel items) => items
  | _ => []
  end.

(** The highlights a view shows, row by row. *)
Definition displayedHighlights (v : View) : list (list Highlight) :=
  match v with
  | MainView lines _ => map lv_highlights lines
  | _ => []
  end.

(** ** The review stream client ([startReviewStream] of lib/api.ts) *)

Inductive Callback :=
| OnEvent (ev : StreamEvent)
| OnError (e : JsError).

(** What can happen to the async body of [startReviewStream] while it is
    suspended at an [await]: the awaited promise settles, or the caller
    aborts through the returned [AbortController]. *)
Inductive StreamInput :=
| FetchResolved (ok hasBody : bool)
| FetchRejected (e : JsError)
| ReadChunk (text : string)
| ReadDone
| ReadRejected (e : JsError)
| Abort.

(** Where the async body is suspended: at [await fetch(...)], at
    [await reader.read()] with the current [buffer], or nowhere any more. *)
Inductive StreamState :=
| AwaitingFetch
| AwaitingRead (buffer : string)
| Closed.

(** The outer [catch (err)]: [onError] unless the error is an
    [AbortError] (or not an [Error] at all). *)
Definition catchHandler (err : JsError) : list Callback :=
  if err_instanceof_Error err && negb (String.eqb (err_name err) "AbortError")
  then [OnError err]
  else [].

Section StreamClient.
(** [JSON.parse]: [None] when it throws, and also when it yields [null],
    on which [onEvent] throws inside the same [try] block. *)
Variable JSON_parse : string -> option StreamEvent.

(** The body of [for (const line of lines)]. *)
Definition processLine (line : string) : list Callback :=
  if String.prefix "data: " line
  then match JSON_parse (slice 6 line) with
       | Some data => [OnEvent data]
       | None => []
       end
  else [].

(** One turn of the [while (true)] loop on a decoded chunk:
    [buffer += chunk; lines = buffer.split('\n');
     buffer = lines.pop() || ''; for (...)]. *)
Definition processChunk (buffer chunk : string) : string * list Callback :=
  let lines := split_nl (buffer ++ chunk) in
  (List.last lines "", flat_map processLine (removelast lines)).

(** The signal passed to [fetch] makes the pending promise, the fetch or
    the body read, reject with an [AbortError] when the controller is
    aborted; inputs that do not match the suspension point do not occur
    and change nothing. *)
Definition step (st : StreamState) (i : StreamInput) : StreamState * list Callback :=
  match st, i with
  | AwaitingFetch, FetchResolved ok hasBody =>
      if negb ok then (Closed, catchHandler (Error "Failed to start review"))
      else if negb hasBody then (Closed, catchHandler (Error "No response body"))
      else (AwaitingRead "", [])
  | AwaitingFetch, FetchRejected e => (Closed, catchHandler e)
  | AwaitingRead buffer, ReadChunk text =>
      let '(buffer', cbs) := processChunk buffer text in
      (AwaitingRead buffer', cbs)
  | AwaitingRead _, ReadDone => (Closed, [])
  | AwaitingRead _, ReadRejected e => (Closed, catchHandler e)
  | AwaitingFetch, Abort => (Closed, catchHandler AbortError)
  | AwaitingRead _, Abort => (Closed, catchHandler AbortError)
  | _, _ => (st, [])
  end.

(** The callbacks fired, in order, over a sequence of inputs. *)
Fixpoint run (st : StreamState) (inputs : list StreamInput)
  : StreamState * list Callback :=
  match inputs with
  | [] => (st, [])
  | i :: rest =>
      let '(st', cbs) := step st i in
      let '(st'', cbs') := run st' rest in
      (st'', (cbs ++ cbs')%list)
  end.
End StreamClient.

(** [doReview] wires the two callbacks of the stream to the page. *)
Definition deliver (cb : Callback) (s : PageState) : PageState :=
  match cb with
  | OnEvent ev => fst (onEvent ev s)
  | OnError e => onError e s
  end.

(** ** The page with the streams it has started *)

(** The page state together with every stream [doReview] has started, the
    newest first: the head is the one whose controller [abortRef.current]
    holds. *)
Record Session := mkSession {
  page : PageState;
  streams : list StreamState
}.

Definition initialSession : Session := mkSession initialState [].

(** What happens to a session: the user starts a review, or an input
    reaches the [k]-th stream. *)
Inductive SessionInput :=
| StartReview
| StreamInputAt (k : nat) (i : StreamInput).

Section Session.
Variable JSON_parse : string -> option StreamEvent.

Definition deliverAll (cbs : list Callback) (s : PageState) : PageState :=
  fold_left (fun acc cb => deliver cb acc) cbs s.

(** [doReview(personaIds)]: [if (abortRef.current) abortRef.current.abort()],
    the state resets, and [abortRef.current = startReviewStream(...)].  The
    catch block of the aborted stream runs after [doReview] returns. *)
Definition doReview (sess : Session) : Session :=
  match streams sess with
  | [] => mkSession (doReview_reset (page sess)) [AwaitingFetch]
  | current :: older =>
      let '(st, cbs) := step JSON_parse current Abort in
      mkSession (deliverAll cbs (doReview_reset (page sess)))
                (AwaitingFetch :: st :: older)
  end.

(** An input reaches the [k]-th stream; its callbacks update the page. *)
Definition feed (k : nat) (i : StreamInput) (sess : Session) : Session :=
  match streams sess !! k with
  | None => sess
  | Some st =>
      let '(st', cbs) := step JSON_parse st i in
      mkSession (deliverAll cbs (page sess)) (<[k := st']> (streams sess))
  end.

Definition sessionStep (sess : Session) (x : SessionInput) : Session :=
  match x with
  | StartReview => doReview sess
  | StreamInputAt k i => feed k i sess
  end.

Definition sessionRun (trace : list SessionInput) : Session :=
  fold_left sessionStep trace initialSession.
End Session.

(** Every stream but the newest has been aborted or has ended. *)
Definition olderClosed (sess : Session) : Prop :=
  Forall (fun st => st = Closed) (tail (streams sess)).

(** ** The request/response client (lib/api.ts) *)

Inductive Method := GET | POST.

Record Request := mkRequest {
  req_method : Method;
  req_url : string
}.

(** A [Response] as the client reads it: [res.ok] and the result of
    [res.json()]. *)
Record Response (J : Type) := mkResponse {
  ok : bool;
  json : Outcome J
}.
Arguments mkResponse {J} ok json.
Arguments ok {J} r.
Arguments json {J} r.

(** [await fetch(...)] rejects (network failure) or resolves with a
    response. *)
Inductive FetchResult (J : Type) :=
| Rejected (e : JsError)
| Resolved (res : Response J).
Arguments Rejected {J} e.
Arguments Resolved {J} res.

(** The endpoints the page calls, indexed by the type the client declares
    for the body. *)
Inductive Endpoint : Type -> Type :=
| DocumentGet (id : string) : Endpoint Document
| PersonasGet : Endpoint (list Persona)
| ReviewsGet (docId : string) : Endpoint (list ReviewSummary)
| LatestCommentsGet (docId : string) : Endpoint (list Comment)
| MetaPost (docId reviewId : string) : Endpoint (list MetaComment)
| MetaGet (docId reviewId : string) : Endpoint (list MetaComment).

Section Api.
(** [API_BASE_URL] of lib/config. *)
Variable API_BASE_URL : string.

(** The method and URL each call passes to [fetch]. *)
Definition request_of {J} (ep : Endpoint J) : Request :=
  match ep with
  | DocumentGet id => mkRequest GET (API_BASE_URL ++ "/api/v1/documents/" ++ id)
  | PersonasGet => mkRequest GET (API_BASE_URL ++ "/api/v1/personas/")
  | ReviewsGet docId =>
      mkRequest GET (API_BASE_URL ++ "/api/v1/reviews/" ++ docId ++ "/reviews")
  | LatestCommentsGet docId =>
      mkRequest GET (API_BASE_URL ++ "/api/v1/reviews/" ++ docId
                                  ++ "/reviews/latest/comments")
  | MetaPost docId reviewId =>
      mkRequest POST (API_BASE_URL ++ "/api/v1/reviews/" ++ docId ++ "/reviews/"
                                   ++ reviewId ++ "/meta")
  | MetaGet docId reviewId =>
      mkRequest GET (API_BASE_URL ++ "/api/v1/reviews/" ++ docId ++ "/reviews/"
                                  ++ reviewId ++ "/meta")
  end.
End Api.

(** An exported async function of lib/api.ts: the endpoint it fetches and
    what it does with the settled fetch. *)
Record ApiCall (J : Type) := mkApiCall {
  endpoint : Endpoint J;
  settle : FetchResult J -> Outcome J
}.
Arguments mkApiCall {J} endpoint settle.
Arguments endpoint {J} a.
Arguments settle {J} a r.

Definition fetchDocument (id : string) : ApiCall Document :=
  mkApiCall (DocumentGet id)
    (fun r => match r with
              | Rejected e => Thrown e
              | Resolved res =>
                  if negb (ok res) then Thrown (Error "Failed to fetch document")
                  else json res
              end).

Definition fetchPersonas : ApiCall (list Persona) :=
  mkApiCall PersonasGet
    (fun r => match r with
              | Rejected e => Thrown e
              | Resolved res =>
                  if negb (ok res) then Thrown (Error "Failed to fetch personas")
                  else json res
              end).

Definition fetchReviews (docId : string) : ApiCall (list ReviewSummary) :=
  mkApiCall (ReviewsGet docId)
    (fun r => match r with
              | Rejected e => Thrown e
              | Resolved res =>
                  if negb (ok res) then Thrown (Error "Failed to fetch reviews")
                  else json res
              end).

Definition fetchLatestComments (docId : string) : ApiCall (list Comment) :=
  mkApiCall (LatestCommentsGet docId)
    (fun r => match r with
              | Rejected e => Thrown e
              | Resolved res =>
                  if negb (ok res) then Returned []
                  else json res
              end).

Definition synthesizeMetaReview (docId reviewId : string) : ApiCall (list MetaComment) :=
  mkApiCall (MetaPost docId reviewId)
    (fun r => match r with
              | Rejected e => Thrown e
              | Resolved res =>
                  if negb (ok res) then Thrown (Error "Failed to synthesize meta review")
                  else json res
              end).

Definition fetchMetaComments (docId reviewId : string) : ApiCall (list MetaComment) :=
  mkApiCall (MetaGet docId reviewId)
    (fun r => match r with
              | Rejected e => Thrown e
              | Resolved res =>
                  if negb (ok res) then Returned []
                  else json res
              end).

(** ** The page against a server *)

Section Client.
Variable API_BASE_URL : string.

(** The server behind [fetch]: its state and how it answers each
    endpoint. *)
Variable Server : Type.
Variable serve : forall J, Endpoint J -> Server -> Server * FetchResult J.

(** The server together with the requests sent to it so far. *)
Record World := mkWorld {
  server : Server;
  log : list Request
}.

(** Awaiting one call of lib/api.ts. *)
Definition perform {J} (call : ApiCall J) (w : World) : World * Outcome J :=
  let '(sv, r) := serve J (endpoint call) (server w) in
  (mkWorld sv (log w ++ [request_of API_BASE_URL (endpoint call)])%list,
   settle call r).

(** [triggerMetaSynthesis(reviewId)], run to completion. *)
Definition triggerMetaSynthesis (docId reviewId : string) (w : World) (s : PageState)
  : World * PageState :=
  let s1 := setIsSynthesizing true s in
  let '(w', out) := perform (synthesizeMetaReview docId reviewId) w in
  (w', metaSynthesisSettled out s1).

(** The first [useEffect]: [Promise.all] of four fetches, then the
    [async] continuation, with [.catch(err => setError(err.message))].
    The four requests are all sent before any result is looked at; when
    several fail, the one reported is taken in source order. *)
Definition loadPage (docId : string) (autoReview : bool) (w : World) (s : PageState)
  : World * PageState :=
  let '(w1, rdoc) := perform (fetchDocument docId) w in
  let '(w2, rp) := perform fetchPersonas w1 in
  let '(w3, rc) := perform (fetchLatestComments docId) w2 in
  let '(w4, rr) := perform (fetchReviews docId) w3 in
  match rdoc, rp, rc, rr with
  | Returned doc, Returned p, Returned existingComments, Returned reviews =>
      let s1 := setSelectedPersonaIds (map p_id p)
                  (setPersonas p (setDocument (Some doc) s)) in
      if (0 <? length existingComments)%nat && negb autoReview then
        let s2 := setComments existingComments s1 in
        match List.find (fun r => String.eqb (r_status r) "completed") reviews with
        | Some completedReview =>
            let s3 := setCurrentReviewId (Some (r_id completedReview)) s2 in
            let '(w5, rm) :=
              perform (fetchMetaComments docId (r_id completedReview)) w4 in
            match rm with
            | Returned cached =>
                if (0 <? length cached)%nat
                then (w5, setMetaComments cached s3)
                else (w5, s3)
            | Thrown _ => (w5, s3)
            end
        | None => (w4, s2)
        end
      else (w4, s1)
  | Thrown e, _, _, _ => (w4, setError (Some (err_message e)) s)
  | _, Thrown e, _, _ => (w4, setError (Some (err_message e)) s)
  | _, _, Thrown e, _ => (w4, setError (Some (err_message e)) s)
  | _, _, _, Thrown e => (w4, setError (Some (err_message e)) s)
  end.
End Client.

Arguments mkWorld {Server} server log.
Arguments server {Server} w.
Arguments log {Server} w.

(** ** Meta-synthesis *)

(** Modelled from the spec: the fixed enumerations of the categories and
    priorities of a MetaComment; the engine is back-end code. *)
Inductive Category := structure | clarity | technical | security | accessibility.

(** Modelled from the spec: the priorities of a MetaComment. *)
Inductive Priority := critical | high | medium | low.

(** Modelled from the spec: the names of the categories on the wire. *)
Definition categoryName (c : Category) : string :=
  match c with
  | structure => "structure"
  | clarity => "clarity"
  | technical => "technical"
  | security => "security"
  | accessibility => "accessibility"
  end.

(** Modelled from the spec: the names of the priorities on the wire, the
    keys of [PRIORITY_COLORS]. *)
Definition priorityName (p : Priority) : string :=
  match p with
  | critical => "critical"
  | high => "high"
  | medium => "medium"
  | low => "low"
  end.

(** Modelled from the spec: the source record that cites a comment in a
    meta-comment: the persona id, name and color and the original text. *)
Definition sourceOf (c : Comment) : MetaCommentSource :=
  mkSource (persona_id c) (persona_name c) (persona_color c) (c_content c).

(** Modelled from the spec: what the Meta-Synthesis Engine leaves to the
    completion model and to its configuration: whether two comments raise
    a related concern, the wording, category and priority of a cluster,
    the proximity window in lines, and the id and time stamp given to a
    meta-comment. *)
Record SynthesisEngine := mkSynthesisEngine {
  window : Z;
  similar : Comment -> Comment -> bool;
  summarize : list Comment -> string;
  categorize : list Comment -> Category;
  prioritize : list Comment -> Priority;
  metaIdOf : list Comment -> string;
  now : string
}.

Section Synthesis.
Variable engine : SynthesisEngine.

(** Modelled from the spec: the clustering test of the Meta-Synthesis
    Engine, which is back-end code: two comments cluster together when
    their [start_line, end_line] intervals intersect or lie within the
    proximity window, and the model judges them similar. *)
Definition clustersWith (a b : Comment) : bool :=
  (start_line a <=? end_line b + window engine)%Z &&
  (start_line b <=? end_line a + window engine)%Z &&
  similar engine a b.

(** Modelled from the spec: the grouping step of the Meta-Synthesis
    Engine.  A comment joins the first cluster that holds a comment it
    clusters with, and otherwise starts a cluster of its own. *)
Fixpoint place (c : Comment) (clusters : list (list Comment)) : list (list Comment) :=
  match clusters with
  | [] => [[c]]
  | cl :: rest =>
      if existsb (clustersWith c) cl then (cl ++ [c])%list :: rest
      else cl :: place c rest
  end.

(** Modelled from the spec: the clusters of a review's comments, placed
    one by one in the order given. *)
Definition clusterize (cs : list Comment) : list (list Comment) :=
  fold_left (fun acc c => place c acc) cs [].

(** Modelled from the spec: the reduction of one cluster to a
    MetaComment, whose range is the union (min/max) of its sources'
    ranges and whose sources cite every comment of the cluster. *)
Definition reduceCluster (cl : list Comment) : MetaComment :=
  mkMetaComment (metaIdOf engine cl) (summarize engine cl)
    (match cl with
     | [] => 0
     | c :: rest => fold_left Z.min (map start_line rest) (start_line c)
     end)
    (match cl with
     | [] => 0
     | c :: rest => fold_left Z.max (map end_line rest) (end_line c)
     end)
    (map sourceOf cl)
    (categoryName (categorize engine cl)) (priorityName (prioritize engine cl))
    (now engine).

(** Modelled from the spec: [synthesize], the Meta-Synthesis Engine on
    the comments of one review. *)
Definition synthesize (cs : list Comment) : list MetaComment :=
  map reduceCluster (clusterize cs).

(** *** The server, as far as the page relies on it *)

(** Modelled from the spec: a persisted review, which owns the comments
    produced during its run. *)
Record StoredReview := mkStoredReview {
  sr_summary : ReviewSummary;
  sr_comments : list Comment
}.

(** Modelled from the spec: the state behind the endpoints, that is the
    Document Store, the Persona Registry, the persisted reviews of each
    document (latest first) and the MetaComment cache keyed by
    (document id, review id).  [synthesisRuns] counts the runs of
    [synthesize]; [completionUp] tells whether the completion model
    answers. *)
Record Backend := mkBackend {
  documents : gmap string Document;
  registry : list Persona;
  reviews : gmap string (list StoredReview);
  metaCache : gmap (string * string) (list MetaComment);
  synthesisRuns : nat;
  completionUp : bool
}.

(** Modelled from the spec: a 2xx response with a JSON body. *)
Definition okWith {J} (x : J) : FetchResult J :=
  Resolved (mkResponse true (Returned x)).

(** Modelled from the spec: a request failure, a response that is not ok. *)
Definition failWith {J} (detail : string) : FetchResult J :=
  Resolved (mkResponse false (Thrown (Error detail))).

(** Modelled from the spec: the reviews persisted for a document. *)
Definition reviewsOf (docId : string) (b : Backend) : list StoredReview :=
  default [] (reviews b !! docId).

(** Modelled from the spec: the endpoints of section 6.  Every GET reads
    the stores; [MetaGet] is [loadMetaComments]; [MetaPost] is the
    explicit synthesis request, which runs [synthesize] on the review's
    comments and saves the result whole ([saveMetaComments]), or fails
    as a request and saves nothing. *)
Definition serveBackend (J : Type) (ep : Endpoint J) (b : Backend)
  : Backend * FetchResult J :=
  match ep in Endpoint T return Backend * FetchResult T with
  | DocumentGet id =>
      match documents b !! id with
      | Some d => (b, okWith d)
      | None => (b, failWith "Document not found")
      end
  | PersonasGet => (b, okWith (registry b))
  | ReviewsGet docId => (b, okWith (map sr_summary (reviewsOf docId b)))
  | LatestCommentsGet docId =>
      match reviewsOf docId b with
      | latest :: _ => (b, okWith (sr_comments latest))
      | [] => (b, failWith "No reviews found")
      end
  | MetaGet docId reviewId =>
      (b, okWith (default [] (metaCache b !! (docId, reviewId))))
  | MetaPost docId reviewId =>
      match List.find (fun sr => String.eqb (r_id (sr_summary sr)) reviewId)
                      (reviewsOf docId b) with
      | Some sr =>
          if completionUp b then
            let result := synthesize (sr_comments sr) in
            (mkBackend (documents b) (registry b) (reviews b)
                       (<[(docId, reviewId) := result]> (metaCache b))
                       (S (synthesisRuns b)) (completionUp b),
             okWith result)
          else (b, failWith "Meta synthesis failed")
      | None => (b, failWith "Review not found")
      end
  end.
End Synthesis.

(** ** More of the document page *)

(** [Math.floor((start_line + end_line) / 2)], the row a click on a
    comment scrolls to and the connector line is anchored on. *)
Definition midLine (startLine endLine : Z) : Z := (startLine + endLine) / 2.

(** An entry of a JS [Map] built by [set] in sequence: a key that is
    already there keeps its place and takes the new value, a new key goes
    last. *)
Fixpoint mapSet {V : Type} (k : string) (v : V) (m : list (string * V))
  : list (string * V) :=
  match m with
  | [] => [(k, v)]
  | (k', v') :: rest =>
      if String.eqb k' k then (k, v) :: rest else (k', v') :: mapSet k v rest
  end.

(** [{ id: c.persona_id, name: c.persona_name, color: c.persona_color }] *)
Record PersonaChip := mkPersonaChip {
  chip_id : string;
  chip_name : string;
  chip_color : string
}.

Definition chipOf (c : Comment) : PersonaChip :=
  mkPersonaChip (persona_id c) (persona_name c) (persona_color c).

(** [Array.from(new Map(comments.map(c => [c.persona_id, {...}])).values())],
    the personas offered as filter chips. *)
Definition commentPersonas (comments : list Comment) : list PersonaChip :=
  map snd (fold_left (fun m c => mapSet (persona_id c) (chipOf c) m) comments []).

(** ** The documents page: selection *)

(** [toggleSelect(id)], as the updater passed to [setSelectedIds]:
    [next.has(id) ? next.delete(id) : next.add(id)] on a copy of the set. *)
Definition toggleSelect (id : string) (prev : gset string) : gset string :=
  if decide (id ∈ prev) then prev ∖ {[id]} else prev ∪ {[id]}.

(** [toggleSelectAll()]: the selection is cleared when it has as many
    elements as there are documents, and becomes all their ids otherwise. *)
Definition toggleSelectAll (selectedIds : gset string) (docs : list Document)
  : gset string :=
  if (size selectedIds =? length docs)%nat then ∅
  else list_to_set (map doc_id docs).

(** ** The home page: dropping and choosing a file *)

(** A [File] as the page reads it: its name; the body goes to the
    server. *)
Record File := mkFile {
  file_name : string;
  file_body : string
}.

(** The body of a successful upload response. *)
Record UploadResult := mkUploadResult {
  document_id : string;
  upload_title : string
}.

(** [String.prototype.endsWith]. *)
Definition endsWith (s suffix : string) : bool :=
  (String.length suffix <=? String.length s)%nat &&
  String.eqb (substring (String.length s - String.length suffix)
                        (String.length suffix) s)
             suffix.

(** The [useState] cells of [Home] that the upload handlers write. *)
Record HomeState := mkHomeState {
  isDragging : bool;
  isUploading : bool;
  uploadStatus : option string
}.

(** What a handler did besides updating the state: the files it passed to
    [uploadFile] and the route it pushed. *)
Record HomeOutcome := mkHomeOutcome {
  home : HomeState;
  uploaded : list File;
  pushed : option string
}.

Section Home.
(** [await uploadFile(file)] of lib/api.ts, as the caller sees it. *)
Variable uploadFile : File -> Outcome UploadResult.

(** [handleFile(file)].  The timers that clear the status line three
    seconds later are left out. *)
Definition handleFile (file : File) (st : HomeState) : HomeOutcome :=
  if negb (endsWith (file_name file) ".md")
  then mkHomeOutcome
         (mkHomeState (isDragging st) (isUploading st)
                      (Some "Only .md files accepted"))
         [] None
  else
    match uploadFile file with
    | Returned result =>
        mkHomeOutcome
          (mkHomeState (isDragging st) true (Some "Starting review..."))
          [file]
          (Some ("/documents/" ++ document_id result ++ "?autoReview=true"))
    | Thrown _ =>
        mkHomeOutcome
          (mkHomeState (isDragging st) false (Some "Upload failed"))
          [file] None
    end.

(** [handleDrop(e)] on the dropped files:
    [Array.from(e.dataTransfer.files).filter(f => f.name.endsWith('.md'))],
    then [handleFile(files[0])]. *)
Definition handleDrop (dropped : list File) (st : HomeState) : HomeOutcome :=
  let st1 := mkHomeState false (isUploading st) (uploadStatus st) in
  match List.filter (fun f => endsWith (file_name f) ".md") dropped with
  | [] =>
      mkHomeOutcome
        (mkHomeState false (isUploading st) (Some "Drop a markdown file"))
        [] None
  | first :: _ => handleFile first st1
  end.
End Home.

(** ** The review stream, as the back end produces it *)

(** Modelled from the spec: the four statuses of a [persona_status] event
    (sections 4.1 and 6); the Review Orchestrator is back-end code. *)
Inductive RunStatus := StQueued | StRunning | StCompleted | StFailed.

(** Modelled from the spec: the names of the statuses on the wire. *)
Definition statusName (st : RunStatus) : string :=
  match st with
  | StQueued => "queued"
  | StRunning => "running"
  | StCompleted => "completed"
  | StFailed => "failed"
  end.

(** Modelled from the spec: a comment as a persona's completion call
    reports it, [{content, start_line, end_line}] (section 4.2). *)
Record ReportedComment := mkReported {
  reported_content : string;
  reported_start_line : Z;
  reported_end_line : Z
}.

(** Modelled from the spec: the range check of the AI Completion Client,
    [0 <= start_line <= end_line < number_of_lines] (sections 4.2 and 8). *)
Definition rangeAccepted (lineCount : Z) (rc : ReportedComment) : bool :=
  (0 <=? reported_start_line rc)%Z &&
  (reported_start_line rc <=? reported_end_line rc)%Z &&
  (reported_end_line rc <? lineCount)%Z.

(** Modelled from the spec: what the AI Completion Client returns for one
    persona: a reported comment whose range is out of bounds or inverted
    is dropped, the others are returned in the order reported. *)
Definition completePersona (lineCount : Z) (reported : list ReportedComment)
  : list ReportedComment :=
  List.filter (rangeAccepted lineCount) reported.

(** Modelled from the spec: what one review run fixes: the id of the
    review, the time of its comments and the ids it gives them (by persona
    and position). *)
Record ReviewRun := mkReviewRun {
  run_review_id : string;
  run_created_at : string;
  run_comment_id : string -> nat -> string
}.

(** Modelled from the spec: a requested persona with the outcome of its
    call: the comments it reported, or [None] when the call errored, timed
    out or returned an unparsable response. *)
Definition PersonaResult : Type := Persona * option (list ReportedComment).

(** Modelled from the spec: the comments of one persona that the
    orchestrator emits and persists: those the completion client returned;
    none for a failed persona. *)
Definition personaComments (run : ReviewRun) (lineCount : Z) (pr : PersonaResult)
  : list Comment :=
  match snd pr with
  | Some reported =>
      imap (fun i rc =>
              mkComment (run_comment_id run (p_id (fst pr)) i) (reported_content rc)
                        (p_id (fst pr)) (p_name (fst pr)) (p_color (fst pr))
                        (reported_start_line rc) (reported_end_line rc)
                        (run_created_at run))
           (completePersona lineCount reported)
  | None => []
  end.

(** Modelled from the spec: a persona ends in [completed] when its call
    returned and in [failed] when it errored. *)
Definition terminalStatus (pr : PersonaResult) : RunStatus :=
  match snd pr with
  | Some _ => StCompleted
  | None => StFailed
  end.

(** Modelled from the spec: the [persona_status] event of a persona. *)
Definition statusEvent (p : Persona) (st : RunStatus) : StreamEvent :=
  personaStatusEvent (p_id p) (p_name p) (p_color p) (statusName st).

(** Modelled from the spec: the status events of one persona, strictly
    ordered queued, running, terminal (section 5). *)
Definition statusStrand (pr : PersonaResult) : list StreamEvent :=
  [statusEvent (fst pr) StQueued; statusEvent (fst pr) StRunning;
   statusEvent (fst pr) (terminalStatus pr)].

(** Modelled from the spec: the [comment] events of one persona, in the
    order the persona returned its comments. *)
Definition commentStrand (run : ReviewRun) (lineCount : Z) (pr : PersonaResult)
  : list StreamEvent :=
  map commentEvent (personaComments run lineCount pr).

(** Modelled from the spec: [l] interleaves [l1] and [l2], keeping the
    order of each. *)
Inductive Shuffle {A : Type} : list A -> list A -> list A -> Prop :=
| shuffle_nil : Shuffle [] [] []
| shuffle_l x l1 l2 l : Shuffle l1 l2 l -> Shuffle (x :: l1) l2 (x :: l)
| shuffle_r x l1 l2 l : Shuffle l1 l2 l -> Shuffle l1 (x :: l2) (x :: l).

(** Modelled from the spec: [l] interleaves all the strands, keeping the
    order of each: the persona calls run concurrently and the spec gives
    no ordering guarantee between the events of different personas. *)
Inductive Interleaving {A : Type} : list (list A) -> list A -> Prop :=
| interleaving_nil : Interleaving [] []
| interleaving_cons strand strands rest l :
    Shuffle strand rest l -> Interleaving strands rest ->
    Interleaving (strand :: strands) l.

(** Modelled from the spec: the strands of a review, two per requested
    persona. *)
Definition reviewStrands (run : ReviewRun) (lineCount : Z) (results : list PersonaResult)
  : list (list StreamEvent) :=
  flat_map (fun pr => [statusStrand pr; commentStrand run lineCount pr]) results.

(** Modelled from the spec: all the comments a review emits. *)
Definition emittedComments (run : ReviewRun) (lineCount : Z)
           (results : list PersonaResult) : list Comment :=
  flat_map (personaComments run lineCount) results.

(** Modelled from the spec: the end of the stream: an [error] event when
    every persona failed, then the one [done] event with the review id and
    the total comment count, the last event of the stream. *)
Definition terminalEvents (run : ReviewRun) (lineCount : Z)
           (results : list PersonaResult) : list StreamEvent :=
  ((if forallb (fun pr => match snd pr with Some _ => false | None => true end) results
    then [errorEvent] else []) ++
   [doneEvent (run_review_id run)
              (Z.of_nat (length (emittedComments run lineCount results)))])%list.

(** Modelled from the spec: the event streams a review of a document of
    [lineCount] lines may produce when the personas' calls end as
    [results] says: any interleaving of the personas' status and comment
    events, followed by the terminal events. *)
Definition ReviewStream (run : ReviewRun) (lineCount : Z) (results : list PersonaResult)
           (evs : list StreamEvent) : Prop :=
  exists body,
    Interleaving (reviewStrands run lineCount results) body /\
    evs = (body ++ terminalEvents run lineCount results)%list.

(** Modelled from the spec: one such stream, the personas taken one after
    the other. *)
Definition sequentialStream (run : ReviewRun) (lineCount : Z)
           (results : list PersonaResult) : list StreamEvent :=
  (concat (reviewStrands run lineCount results) ++
   terminalEvents run lineCount results)%list.

(** ** Sample data *)

(** [lines.join('\n')] *)
Definition joinLines (ls : list string) : string :=
  String.concat (String LF EmptyString) ls.

(** An eight-line document. *)
Definition eightLines : Document :=
  mkDocument "doc-1" "Design notes" None
    (joinLines ["# Title"; ""; "Intro"; "Body one"; "Body two"; "Body three"; "";
                "The end"])
    false "2026-01-01" "2026-01-01" 1.

Definition architect15 : Comment :=
  mkComment "c-15" "Unclear ownership" "architect" "Technical Architect" "#3b82f6"
            15 15 "2026-01-02".

Definition editor2 : Comment :=
  mkComment "c-2" "Tighten the intro" "editor" "Supportive Editor" "#22c55e"
            2 2 "2026-01-02".

Definition architect2to3 : Comment :=
  mkComment "c-3" "Intro hides the constraint" "architect" "Technical Architect"
            "#3b82f6" 2 3 "2026-01-02".

Definition security5 : Comment :=
  mkComment "c-5" "Secrets in the example" "security" "Security Reviewer" "#ef4444"
            5 5 "2026-01-02".

(** The page once the document is loaded and a review has been started. *)
Definition reviewing : PageState :=
  doReview_reset (setDocument (Some eightLines) initialState).

(** The same page after one comment and the [done] event of review rev-1. *)
Definition reviewDone : PageState :=
  consume [commentEvent editor2; doneEvent "rev-1" 1] reviewing.

(** A stand-in for [JSON.parse] that knows two payloads. *)
Definition sampleParse (text : string) : option StreamEvent :=
  if String.eqb text "{comment}" then Some (commentEvent editor2)
  else if String.eqb text "{done}" then Some (doneEvent "rev-1" 1)
  else None.

Definition networkError : JsError := mkJsError true "TypeError" "network error".

(** An engine whose completion model finds every pair of comments
    related. *)
Definition sampleEngine : SynthesisEngine :=
  mkSynthesisEngine 0 (fun _ _ => true) (fun _ => "Merged feedback")
                    (fun _ => clarity) (fun _ => high) (fun _ => "meta-1") "2026-01-03".

Definition sampleSynthesize : list Comment -> list MetaComment :=
  synthesize sampleEngine.

Definition sampleServe : forall J, Endpoint J -> Backend -> Backend * FetchResult J :=
  serveBackend sampleEngine.

Definition sampleReview : StoredReview :=
  mkStoredReview
    (mkReviewSummary "rev-1" "doc-1" ["editor"; "architect"] "completed"
                     "2026-01-02" (Some "2026-01-02") 2)
    [editor2; architect2to3].

(** A server holding the document with one completed review, already
    synthesized once. *)
Definition sampleBackend (up : bool) : Backend :=
  mkBackend (<["doc-1" := eightLines]> ∅) []
            (<["doc-1" := [sampleReview]]> ∅)
            (<[("doc-1", "rev-1") := sampleSynthesize [editor2; architect2to3]]> ∅)
            1 up.

Definition sampleBaseUrl : string := "http://localhost:8001".

(** The page after three comments of a review have arrived. *)
Definition threeComments : PageState :=
  consume [commentEvent editor2; commentEvent architect2to3; commentEvent security5]
          reviewing.

(** The same page once the synthesis of its comments has come back. *)
Definition synthesized : PageState :=
  metaSynthesisSettled
    (Returned (sampleSynthesize [editor2; architect2to3; security5])) threeComments.

Definition secondDocument : Document :=
  mkDocument "doc-2" "Release notes" None "One line" false "2026-01-04" "2026-01-04" 0.

(** Two personas of the registry. *)
Definition architectPersona : Persona :=
  mkPersona "architect" "Technical Architect" None "Review the design." "direct"
            ["architecture"] "#3b82f6".

Definition editorPersona : Persona :=
  mkPersona "editor" "Supportive Editor" None "Review the prose." "warm"
            ["clarity"] "#22c55e".

(** The sample server with the two personas in its registry. *)
Definition staffedBackend : Backend :=
  mkBackend (documents (sampleBackend true)) [architectPersona; editorPersona]
            (reviews (sampleBackend true)) (metaCache (sampleBackend true))
            1 true.

Definition sampleRun : ReviewRun :=
  mkReviewRun "rev-2" "2026-01-05" (fun pid i => pid ++ match i with O => "-1" | S _ => "-n" end).

(** The editor reports a comment on line 2 and one on line 15 of the
    eight-line document; the architect's call fails. *)
Definition sampleResults : list PersonaResult :=
  [(editorPersona, Some [mkReported "Tighten the intro" 2 2;
                         mkReported "Unclear ownership" 15 15]);
   (architectPersona, None)].

(** * Properties *)

(** ** Persona selection *)

Lemma includes_In (id : string) (l : list string) :
  includes id l = true <-> In id l.
Proof.
  unfold includes. rewrite existsb_exists. split.
  - intros (x & Hx & Heq). apply String.eqb_eq in Heq. now subst.
  - intros H. exists id. split; [exact H | apply String.eqb_refl].
Qed.

Lemma includes_false_not_In (id : string) (l : list string) :
  includes id l = false <-> ~ In id l.
Proof.
  rewrite <- includes_In. destruct (includes id l); split; congruence.
Qed.

Lemma filter_other_In (id q : string) (l : list string) :
  In q (List.filter (fun p => negb (String.eqb p id)) l) <-> In q l /\ q <> id.
Proof.
  rewrite filter_In. split; intros [Hin H]; split; trivial.
  - intros ->. now rewrite String.eqb_refl in H.
  - apply negb_true_iff. now apply String.eqb_neq.
Qed.

Lemma filter_absent_id (id : string) (l : list string) :
  ~ In id l -> List.filter (fun p => negb (String.eqb p id)) l = l.
Proof.
  induction l as [| x l IH]; simpl; intros Hn; [reflexivity |].
  destruct (String.eqb_spec x id) as [-> | Hne]; simpl.
  - exfalso. apply Hn. now left.
  - f_equal. apply IH. intros H. apply Hn. now right.
Qed.

Lemma filter_present_perm (id : string) (l : list string) :
  List.NoDup l -> In id l ->
  Permutation (List.filter (fun p => negb (String.eqb p id)) l ++ [id])%list l.
Proof.
  induction l as [| x l IH]; simpl; intros Hnd Hin; [contradiction |].
  inversion Hnd as [| ? ? Hx Hl]; subst.
  destruct (String.eqb_spec x id) as [-> | Hne]; simpl.
  - rewrite filter_absent_id by exact Hx.
    symmetry. apply Permutation_cons_append.
  - apply perm_skip. apply IH; [exact Hl |].
    destruct Hin as [-> | Hin]; [congruence | exact Hin].
Qed.

(** C10.  On a duplicate-free selection, one [togglePersona(p)] appends [p]
    exactly when it is absent and removes every occurrence of [p] when it is
    present, the selection stays duplicate-free, and two applications give
    back the original selection as a set (the same ids, each once). *)
Theorem togglePersona_twice (p : string) (l : list string) :
  List.NoDup l ->
  (~ In p l -> togglePersona p l = (l ++ [p])%list) /\
  (In p l -> ~ In p (togglePersona p l) /\
             forall q, q <> p -> (In q (togglePersona p l) <-> In q l)) /\
  List.NoDup (togglePersona p l) /\
  Permutation (togglePersona p (togglePersona p l)) l /\
  (forall q, In q (togglePersona p (togglePersona p l)) <-> In q l).
Proof.
  intros Hnd.
  assert (Hadd : ~ In p l -> togglePersona p l = (l ++ [p])%list).
  { intros Hn. unfold togglePersona.
    now rewrite (proj2 (includes_false_not_In p l) Hn). }
  assert (Hdel : In p l ->
            togglePersona p l = List.filter (fun q => negb (String.eqb q p)) l).
  { intros Hin. unfold togglePersona.
    now rewrite (proj2 (includes_In p l) Hin). }
  assert (Hperm : Permutation (togglePersona p (togglePersona p l)) l).
  { destruct (in_dec string_dec p l) as [Hin | Hn].
    - rewrite (Hdel Hin).
      assert (Hgone : ~ In p (List.filter (fun q => negb (String.eqb q p)) l)).
      { rewrite filter_other_In. tauto. }
      unfold togglePersona at 1.
      rewrite (proj2 (includes_false_not_In p _) Hgone).
      now apply filter_present_perm.
    - rewrite (Hadd Hn).
      assert (Hthere : In p (l ++ [p])%list).
      { apply in_or_app. right. now left. }
      unfold togglePersona.
      rewrite (proj2 (includes_In p _) Hthere).
      rewrite List.filter_app. simpl. rewrite String.eqb_refl. simpl.
      rewrite app_nil_r. now rewrite filter_absent_id. }
  split; [exact Hadd |].
  split.
  { intros Hin. rewrite (Hdel Hin). split.
    - rewrite filter_other_In. tauto.
    - intros q Hq. rewrite filter_other_In. tauto. }
  split.
  { destruct (in_dec string_dec p l) as [Hin | Hn].
    - rewrite (Hdel Hin). now apply List.NoDup_filter.
    - rewrite (Hadd Hn).
      apply (Permutation.Permutation_NoDup (Permutation_cons_append l p)).
      now constructor. }
  split; [exact Hperm |].
  intros q. split; intros Hq.
  - now apply (Permutation_in _ Hperm).
  - now apply (Permutation_in _ (Permutation_sym Hperm)).
Qed.

Lemma togglePersona_twice_witness :
  List.NoDup ["architect"; "editor"] /\
  Permutation (togglePersona "architect" (togglePersona "architect" ["architect"; "editor"]))
              ["architect"; "editor"].
Proof.
  assert (Hnd : List.NoDup ["architect"; "editor"]).
  { repeat constructor; simpl; intuition congruence. }
  split; [exact Hnd |].
  exact (proj1 (proj2 (proj2 (proj2 (togglePersona_twice "architect" _ Hnd))))).
Defined.

(** ** The comment list is ordered by start line *)

Section SortByKey.
Context {A : Type} (key : A -> Z).

Lemma sort_insert_perm (x : A) (l : list A) :
  Permutation (sort_insert (fun a b => key a - key b) x l) (x :: l).
Proof.
  induction l as [| y l IH]; simpl; [reflexivity |].
  destruct (key x - key y <=? 0)%Z; [reflexivity |].
  rewrite IH. apply perm_swap.
Qed.

Lemma Array_sort_perm (l : list A) :
  Permutation (Array_sort (fun a b => key a - key b) l) l.
Proof.
  induction l as [| x l IH]; simpl; [reflexivity |].
  rewrite sort_insert_perm. now apply perm_skip.
Qed.

Lemma sort_insert_sorted (x : A) (l : list A) :
  StronglySorted (fun a b => key a <= key b) l ->
  StronglySorted (fun a b => key a <= key b)
                 (sort_insert (fun a b => key a - key b) x l).
Proof.
  induction l as [| y l IH]; simpl; intros Hs.
  - constructor; [constructor | constructor].
  - inversion Hs as [| ? ? Hl Hy]; subst.
    destruct (Z.leb_spec (key x - key y) 0) as [Hle | Hgt].
    + constructor; [exact Hs |].
      constructor; [lia |].
      eapply List.Forall_impl; [| exact Hy].
      intros a Ha. simpl in Ha. lia.
    + constructor; [now apply IH |].
      apply (Permutation_Forall (Permutation_sym (sort_insert_perm x l))).
      constructor; [lia | exact Hy].
Qed.

Lemma Array_sort_sorted (l : list A) :
  StronglySorted (fun a b => key a <= key b)
                 (Array_sort (fun a b => key a - key b) l).
Proof.
  induction l as [| x l IH]; simpl; [constructor |].
  now apply sort_insert_sorted.
Qed.
End SortByKey.

Lemma sorted_keys_unique (l1 l2 : list Z) :
  StronglySorted Z.le l1 -> StronglySorted Z.le l2 -> Permutation l1 l2 -> l1 = l2.
Proof.
  revert l2. induction l1 as [| x l1 IH]; intros l2 H1 H2 Hp.
  - now apply Permutation_nil in Hp.
  - destruct l2 as [| y l2]; [now apply Permutation_sym, Permutation_nil in Hp |].
    inversion H1 as [| ? ? H1' Hx]; subst.
    inversion H2 as [| ? ? H2' Hy]; subst.
    assert (Hxy : x = y).
    { assert (Hin1 : In x (y :: l2)) by (apply (Permutation_in _ Hp); now left).
      assert (Hin2 : In y (x :: l1))
        by (apply (Permutation_in _ (Permutation_sym Hp)); now left).
      rewrite List.Forall_forall in Hx, Hy.
      destruct Hin1 as [-> | Hin1]; [reflexivity |].
      destruct Hin2 as [-> | Hin2]; [reflexivity |].
      specialize (Hx _ Hin2). specialize (Hy _ Hin1). lia. }
    subst y. f_equal. apply IH; trivial.
    now apply Permutation_cons_inv in Hp.
Qed.

Lemma sorted_map_key {A : Type} (key : A -> Z) (l : list A) :
  StronglySorted (fun a b => key a <= key b) l -> StronglySorted Z.le (map key l).
Proof.
  induction 1 as [| a l Hl IH Ha]; simpl; constructor; trivial.
  rewrite List.Forall_forall in *. intros k Hk.
  apply in_map_iff in Hk. destruct Hk as (b & <- & Hb). now apply Ha.
Qed.

Lemma filter_perm {A : Type} (f : A -> bool) (l l' : list A) :
  Permutation l l' -> Permutation (List.filter f l) (List.filter f l').
Proof.
  induction 1 as [| x l l' _ IH | x y l | l l' l'' _ IH1 _ IH2]; simpl.
  - reflexivity.
  - destruct (f x); [now apply perm_skip | exact IH].
  - destruct (f x), (f y); try reflexivity. apply perm_swap.
  - now rewrite IH1.
Qed.

(** C4.  Whatever comments were received, in whatever order, and whatever
    the persona filter, the list the comments panel displays is in
    non-decreasing order of [start_line]: it is [sortedComments], which
    holds exactly the comments that pass the filter, ordered, and whose
    sequence of start lines is the same for every arrival order. *)
Theorem sortedComments_sorted (s : PageState) :
  StronglySorted (fun a b => start_line a <= start_line b)
                 (sortedComments (comments s) (filterPersona s)) /\
  Permutation (sortedComments (comments s) (filterPersona s))
              (List.filter (passesFilter (filterPersona s)) (comments s)) /\
  StronglySorted (fun a b => start_line a <= start_line b)
                 (displayedComments (render s)) /\
  (forall arrival : list Comment,
      Permutation arrival (comments s) ->
      map start_line (sortedComments arrival (filterPersona s)) =
      map start_line (sortedComments (comments s) (filterPersona s))).
Proof.
  assert (Hsorted : forall cs f,
             StronglySorted (fun a b => start_line a <= start_line b)
                            (sortedComments cs f)).
  { intros cs f. apply (Array_sort_sorted start_line). }
  assert (Hperm : forall cs f,
             Permutation (sortedComments cs f) (List.filter (passesFilter f) cs)).
  { intros cs f. apply (Array_sort_perm start_line). }
  split; [apply Hsorted |].
  split; [apply Hperm |].
  split.
  - unfold render. destruct (truthy (error s)); [constructor |].
    destruct (document s); [| constructor].
    unfold renderPanel. destruct (viewMode s); simpl; [constructor | apply Hsorted].
  - intros arrival Harr.
    apply sorted_keys_unique.
    + apply sorted_map_key, Hsorted.
    + apply sorted_map_key, Hsorted.
    + apply Permutation_map.
      rewrite !Hperm. now apply filter_perm.
Qed.

Lemma sortedComments_sorted_witness :
  map start_line (sortedComments [security5; editor2] None) =
  map start_line (sortedComments [editor2; security5] None).
Proof.
  refine (proj2 (proj2 (proj2
    (sortedComments_sorted (setComments [editor2; security5] reviewing))))
    [security5; editor2] _).
  apply perm_swap.
Defined.

(** ** Comments with a line range outside the document *)

Lemma forLines_lookup_outside (n : nat) (start : Z) (h : Highlight)
      (m : gmap Z (list Highlight)) (line : Z) :
  line < start \/ start + Z.of_nat n <= line ->
  forLines n start h m !! line = m !! line.
Proof.
  revert start m. induction n as [| n IH]; intros start m Hout; simpl; [reflexivity |].
  rewrite IH by lia.
  unfold pushHighlight. apply lookup_insert_ne. lia.
Qed.

Lemma highlightRange_inverted (s e : Z) (h : Highlight) (m : gmap Z (list Highlight)) :
  e < s -> highlightRange s e h m = m.
Proof.
  intros Hinv. unfold highlightRange.
  replace (Z.to_nat (e - s + 1)) with O by lia. reflexivity.
Qed.

Lemma highlightRange_lookup_outside (s e : Z) (h : Highlight)
      (m : gmap Z (list Highlight)) (line : Z) :
  line < s \/ e < line ->
  highlightRange s e h m !! line = m !! line.
Proof.
  intros Hout. unfold highlightRange.
  destruct (Z.lt_ge_cases e s) as [Hinv | Hle].
  - replace (Z.to_nat (e - s + 1)) with O by lia. reflexivity.
  - apply forLines_lookup_outside. lia.
Qed.

Lemma truthy_filter_passes (f : option string) (c : Comment) :
  truthy f = true ->
  passesFilter f c = match f with
                     | Some g => String.eqb (persona_id c) g
                     | None => false
                     end.
Proof. intros H. unfold passesFilter. now rewrite H. Qed.

Lemma map_imap {A B C : Type} (f : B -> C) (g : nat -> A -> B) (l : list A) :
  map f (imap g l) = imap (fun i x => f (g i x)) l.
Proof.
  revert g. induction l as [| x l IH]; intros g; simpl; [reflexivity |].
  f_equal. apply IH.
Qed.

(** The page itself applies no range check: whatever [comment] event
    arrives is listed.  On the eight-line document, an event carrying a
    comment at line 15 puts that comment in the comments list and in the
    list the page displays; that no such event arrives is the back end's
    doing. *)
Example page_lists_whatever_arrives :
  length (contentLines eightLines) = 8%nat /\
  start_line architect15 = 15 /\
  In architect15 (comments (consume [commentEvent architect15] reviewing)) /\
  In architect15
     (displayedComments (render (consume [commentEvent architect15] reviewing))).
Proof.
  split; [reflexivity |].
  split; [reflexivity |].
  split; [left; reflexivity |].
  vm_compute. left. reflexivity.
Qed.

(** A comment inside the document highlights its rows, and one that
    starts inside and ends beyond the last line highlights the rows it
    overlaps. *)
Example highlights_of_ranges :
  displayedHighlights (render (consume [commentEvent architect2to3] reviewing))
  = [[]; []; [mkHighlight "c-3" "#3b82f6"]; [mkHighlight "c-3" "#3b82f6"];
     []; []; []; []] /\
  displayedHighlights
    (render (consume
               [commentEvent (mkComment "c-9" "Too long" "editor" "Supportive Editor"
                                        "#22c55e" 6 15 "2026-01-02")]
               reviewing))
  = [[]; []; []; []; []; [];
     [mkHighlight "c-9" "#22c55e"]; [mkHighlight "c-9" "#22c55e"]].
Proof. split; vm_compute; reflexivity. Qed.

(** ** A stream error after comments have arrived *)

Lemma truthy_Some_nonempty (msg : string) : msg <> "" -> truthy (Some msg) = true.
Proof.
  intros Hne. unfold truthy. apply negb_true_iff. now apply String.eqb_neq.
Qed.

(** C2, as the page has it.  When the stream fails and [onError] runs, the
    comments received so far stay in the page state, but the page then
    returns its error panel with the error's message and nothing else, so
    no comment is displayed; a server [error] event, which reaches
    [onEvent], changes nothing and leaves the comments on screen. *)
Theorem stream_error_replaces_page (s : PageState) (err : JsError) :
  err_message err <> "" ->
  comments (onError err s) = comments s /\
  render (onError err s) = ErrorView (err_message err) /\
  displayedComments (render (onError err s)) = [] /\
  (forall ev, ev_type ev = "error" -> onEvent ev s = (s, None)).
Proof.
  intros Hmsg.
  split; [reflexivity |].
  assert (Hview : render (onError err s) = ErrorView (err_message err)).
  { unfold render.
    change (error (onError err s)) with (Some (err_message err)).
    now rewrite truthy_Some_nonempty. }
  split; [exact Hview |].
  split; [now rewrite Hview |].
  intros ev Hty. unfold onEvent. rewrite Hty. simpl.
  destruct (ev_comment ev); reflexivity.
Qed.

Lemma stream_error_replaces_page_witness :
  render (onError networkError (fst (onEvent (commentEvent editor2) reviewing))) =
  ErrorView "network error".
Proof.
  refine (proj1 (proj2
    (stream_error_replaces_page (fst (onEvent (commentEvent editor2) reviewing))
                                networkError _))).
  vm_compute. discriminate.
Defined.

(** One comment arrives and is displayed; the stream then fails with a
    network error: the comment is still in the state and no longer in what
    the page displays. *)
Lemma stream_error_hides_received_comment :
  In editor2 (displayedComments (render (fst (onEvent (commentEvent editor2) reviewing)))) /\
  In editor2
     (comments (onError networkError (fst (onEvent (commentEvent editor2) reviewing)))) /\
  ~ In editor2
       (displayedComments
          (render (onError networkError (fst (onEvent (commentEvent editor2) reviewing))))).
Proof.
  split; [vm_compute; left; reflexivity |].
  split; [left; reflexivity |].
  vm_compute. intros [].
Qed.

(** ** The per-persona status map *)

Lemma onEvent_personaStatuses (ev : StreamEvent) (s : PageState) (pid : option string) :
  personaStatuses (fst (onEvent ev s)) !! pid =
  if statusEventFor pid ev then Some (statusOfEvent ev) else personaStatuses s !! pid.
Proof.
  unfold onEvent, statusEventFor.
  destruct (String.eqb_spec (ev_type ev) "persona_status") as [Hty | Hty].
  - rewrite Hty. simpl. destruct (ev_comment ev); simpl;
      (case_bool_decide as Hpid;
       [subst pid; apply lookup_insert_eq | now apply lookup_insert_ne]).
  - simpl.
    destruct (ev_comment ev), (String.eqb (ev_type ev) "comment"),
      (String.eqb (ev_type ev) "done"), (truthy (ev_review_id ev)); reflexivity.
Qed.

Lemma consume_snoc (evs : list StreamEvent) (ev : StreamEvent) (s : PageState) :
  consume (evs ++ [ev])%list s = fst (onEvent ev (consume evs s)).
Proof. unfold consume. now rewrite fold_left_app. Qed.

Lemma find_app_first {A : Type} (f : A -> bool) (l1 l2 : list A) :
  List.find f (l1 ++ l2)%list =
  match List.find f l1 with
  | Some x => Some x
  | None => List.find f l2
  end.
Proof.
  induction l1 as [| x l1 IH]; simpl; [reflexivity |].
  destruct (f x); [reflexivity | exact IH].
Qed.

Lemma find_none_Forall {A : Type} (f : A -> bool) (l : list A) :
  Forall (fun x => f x = false) l -> List.find f l = None.
Proof.
  induction 1 as [| x l Hx _ IH]; simpl; [reflexivity |]. now rewrite Hx.
Qed.

Lemma consume_personaStatuses (evs : list StreamEvent) (s : PageState)
      (pid : option string) :
  personaStatuses (consume evs s) !! pid =
  match List.find (statusEventFor pid) (rev evs) with
  | Some ev => Some (statusOfEvent ev)
  | None => personaStatuses s !! pid
  end.
Proof.
  induction evs as [| ev evs IH] using rev_ind; [reflexivity |].
  rewrite consume_snoc, onEvent_personaStatuses, rev_unit. simpl.
  destruct (statusEventFor pid ev); [reflexivity | exact IH].
Qed.

(** ** A failed meta-synthesis request *)

Lemma onEvent_viewMode (ev : StreamEvent) (s : PageState) :
  viewMode (fst (onEvent ev s)) = viewMode s /\
  error (fst (onEvent ev s)) = error s /\
  document (fst (onEvent ev s)) = document s /\
  filterPersona (fst (onEvent ev s)) = filterPersona s /\
  metaComments (fst (onEvent ev s)) = metaComments s.
Proof.
  unfold onEvent.
  destruct (String.eqb (ev_type ev) "persona_status"), (ev_comment ev),
    (String.eqb (ev_type ev) "comment"), (String.eqb (ev_type ev) "done"),
    (truthy (ev_review_id ev)); simpl; auto.
Qed.

Lemma consume_viewMode (evs : list StreamEvent) (s : PageState) :
  viewMode (consume evs s) = viewMode s /\
  error (consume evs s) = error s /\
  document (consume evs s) = document s /\
  filterPersona (consume evs s) = filterPersona s /\
  metaComments (consume evs s) = metaComments s.
Proof.
  induction evs as [| ev evs IH] using rev_ind; [simpl; auto |].
  rewrite consume_snoc.
  destruct (onEvent_viewMode ev (consume evs s)) as (-> & -> & -> & -> & ->).
  exact IH.
Qed.

Lemma synthesizeMetaReview_failure (docId reviewId : string)
      (r : FetchResult (list MetaComment)) :
  match r with
  | Rejected _ => True
  | Resolved res => ok res = false
  end ->
  exists e, settle (synthesizeMetaReview docId reviewId) r = Thrown e.
Proof.
  destruct r as [e | res]; simpl; intros H; [now exists e |].
  rewrite H. simpl. eauto.
Qed.

(** C8.  When the request of [synthesizeMetaReview] fails (the fetch
    rejects or the response is not ok), [triggerMetaSynthesis] only resets
    the synthesizing flag: the comments, the error state and the view mode
    are as before and the page renders what it rendered.  After a review
    run, started by [doReview] and fed any events, that view is the
    individual comments list with no meta-comments. *)
Theorem failed_synthesis_keeps_individual_view
        (API_BASE_URL : string) (Server : Type)
        (serve : forall J, Endpoint J -> Server -> Server * FetchResult J)
        (docId reviewId : string) (w : World Server) (s : PageState) :
  match snd (serve _ (MetaPost docId reviewId) (server w)) with
  | Rejected _ => True
  | Resolved res => ok res = false
  end ->
  let s' := snd (triggerMetaSynthesis API_BASE_URL Server serve docId reviewId w s) in
  comments s' = comments s /\
  error s' = error s /\
  viewMode s' = viewMode s /\
  metaComments s' = metaComments s /\
  isSynthesizing s' = false /\
  render s' = render s /\
  (forall s0 evs d,
      s = consume evs (doReview_reset s0) ->
      truthy (error s0) = false -> document s0 = Some d ->
      viewMode s' = individual /\
      render s' = MainView (renderLines s' d)
                           (IndividualPanel (sortedComments (comments s) (filterPersona s0)))).
Proof.
  intros Hfail s'.
  assert (Hs' : s' = setIsSynthesizing false (setIsSynthesizing true s)).
  { subst s'. unfold triggerMetaSynthesis, perform.
    destruct (serve (list MetaComment) (endpoint (synthesizeMetaReview docId reviewId))
                    (server w)) as [sv r] eqn:Hserve.
    simpl in Hserve. simpl in Hfail. rewrite Hserve in Hfail. simpl in Hfail.
    destruct (synthesizeMetaReview_failure docId reviewId r Hfail) as [e He].
    rewrite He. reflexivity. }
  assert (Hrender : render s' = render s) by (rewrite Hs'; reflexivity).
  assert (Hlines : forall d, renderLines s' d = renderLines s d)
    by (intros d; rewrite Hs'; reflexivity).
  split; [rewrite Hs'; reflexivity |].
  split; [rewrite Hs'; reflexivity |].
  split; [rewrite Hs'; reflexivity |].
  split; [rewrite Hs'; reflexivity |].
  split; [rewrite Hs'; reflexivity |].
  split; [exact Hrender |].
  intros s0 evs d Hs Herr Hdoc.
  destruct (consume_viewMode evs (doReview_reset s0)) as (Hvm & He & Hd & Hf & _).
  rewrite <- Hs in Hvm, He, Hd, Hf. simpl in Hvm, He, Hd, Hf.
  assert (Hmode' : viewMode s' = viewMode s) by (rewrite Hs'; reflexivity).
  split; [now rewrite Hmode' |].
  rewrite Hrender, Hlines. unfold render.
  rewrite He, Herr, Hd, Hdoc. unfold renderPanel. now rewrite Hvm, Hf.
Qed.

Lemma failed_synthesis_witness :
  comments (snd (triggerMetaSynthesis sampleBaseUrl Backend sampleServe "doc-1" "rev-1"
                   (mkWorld (sampleBackend false) []) reviewDone)) = [editor2] /\
  error (snd (triggerMetaSynthesis sampleBaseUrl Backend sampleServe "doc-1" "rev-1"
                (mkWorld (sampleBackend false) []) reviewDone)) = None /\
  viewMode (snd (triggerMetaSynthesis sampleBaseUrl Backend sampleServe "doc-1" "rev-1"
                   (mkWorld (sampleBackend false) []) reviewDone)) = individual.
Proof.
  assert (Hfail :
            match snd (sampleServe _ (MetaPost "doc-1" "rev-1")
                                   (server (mkWorld (sampleBackend false) []))) with
            | Rejected _ => True
            | Resolved res => ok res = false
            end) by (vm_compute; reflexivity).
  destruct (failed_synthesis_keeps_individual_view
              sampleBaseUrl Backend sampleServe "doc-1" "rev-1"
              (mkWorld (sampleBackend false) []) reviewDone Hfail)
    as (Hc & He & Hv & _).
  split; [exact Hc |]. split; [exact He | exact Hv].
Defined.

(** ** Non-ok responses in the request/response client *)

(** C9.  On a response that is not ok, whatever its body,
    [fetchLatestComments] and [fetchMetaComments] return the empty list,
    and [fetchDocument], [fetchPersonas] and [synthesizeMetaReview] throw
    an [Error]. *)
Theorem non_ok_response_handling (docId reviewId : string) :
  (forall body, settle (fetchLatestComments docId) (Resolved (mkResponse false body))
                = Returned []) /\
  (forall body, settle (fetchMetaComments docId reviewId)
                       (Resolved (mkResponse false body))
                = Returned []) /\
  (forall body, settle (fetchDocument docId) (Resolved (mkResponse false body))
                = Thrown (Error "Failed to fetch document")) /\
  (forall body, settle fetchPersonas (Resolved (mkResponse false body))
                = Thrown (Error "Failed to fetch personas")) /\
  (forall body, settle (synthesizeMetaReview docId reviewId)
                       (Resolved (mkResponse false body))
                = Thrown (Error "Failed to synthesize meta review")).
Proof. repeat split. Qed.

(** ** Cancelling the review stream *)

Section StreamFacts.
Variable JSON_parse : string -> option StreamEvent.

Lemma run_app (st : StreamState) (xs ys : list StreamInput) :
  run JSON_parse st (xs ++ ys)%list =
  (fst (run JSON_parse (fst (run JSON_parse st xs)) ys),
   (snd (run JSON_parse st xs) ++
    snd (run JSON_parse (fst (run JSON_parse st xs)) ys))%list).
Proof.
  revert st. induction xs as [| x xs IH]; intros st; simpl.
  - now destruct (run JSON_parse st ys).
  - destruct (step JSON_parse st x) as [st1 cbs1].
    rewrite IH.
    destruct (run JSON_parse st1 xs) as [st2 cbs2]. simpl.
    destruct (run JSON_parse st2 ys) as [st3 cbs3]. simpl.
    now rewrite app_assoc.
Qed.

Lemma run_Closed (inputs : list StreamInput) :
  run JSON_parse Closed inputs = (Closed, []).
Proof.
  induction inputs as [| i rest IH]; simpl; [reflexivity |].
  rewrite IH. now destruct i.
Qed.

Lemma step_Abort (st : StreamState) : step JSON_parse st Abort = (Closed, []).
Proof. now destruct st. Qed.
End StreamFacts.

Section SessionFacts.
Variable JSON_parse : string -> option StreamEvent.

Lemma step_Closed (i : StreamInput) : step JSON_parse Closed i = (Closed, []).
Proof. now destruct i. Qed.

Lemma doReview_page (sess : Session) :
  page (doReview JSON_parse sess) = doReview_reset (page sess).
Proof.
  unfold doReview. destruct (streams sess) as [| current older]; [reflexivity |].
  now rewrite step_Abort.
Qed.

Lemma doReview_olderClosed (sess : Session) :
  olderClosed sess -> olderClosed (doReview JSON_parse sess).
Proof.
  unfold olderClosed, doReview. intros Hold.
  destruct (streams sess) as [| current older]; simpl in *; [constructor |].
  rewrite step_Abort. simpl. now constructor.
Qed.

Lemma feed_olderClosed (k : nat) (i : StreamInput) (sess : Session) :
  olderClosed sess -> olderClosed (feed JSON_parse k i sess).
Proof.
  unfold olderClosed, feed. intros Hold.
  destruct (streams sess !! k) as [st |] eqn:Hk; [| exact Hold].
  destruct (step JSON_parse st i) as [st' cbs] eqn:Hstep. simpl.
  destruct (streams sess) as [| current older]; [discriminate |].
  destruct k as [| k]; simpl in *; [exact Hold |].
  rewrite List.Forall_forall in Hold.
  assert (Hst : st = Closed) by (apply Hold; eapply list_elem_of_In, list_elem_of_lookup_2, Hk).
  subst st. rewrite step_Closed in Hstep. injection Hstep as <- <-.
  rewrite list_insert_id by exact Hk.
  now apply List.Forall_forall.
Qed.

Lemma sessionRun_olderClosed (trace : list SessionInput) :
  olderClosed (sessionRun JSON_parse trace).
Proof.
  induction trace as [| x trace IH] using rev_ind; [constructor |].
  unfold sessionRun. rewrite fold_left_app. simpl.
  destruct x as [| k i]; simpl.
  - now apply doReview_olderClosed.
  - now apply feed_olderClosed.
Qed.

Lemma feed_older_page (k : nat) (i : StreamInput) (sess : Session) :
  olderClosed sess -> (1 <= k)%nat -> page (feed JSON_parse k i sess) = page sess.
Proof.
  unfold olderClosed, feed. intros Hold Hk.
  destruct (streams sess !! k) as [st |] eqn:Hlk; [| reflexivity].
  destruct (streams sess) as [| current older]; [discriminate |].
  destruct k as [| k]; [lia |]. simpl in *.
  rewrite List.Forall_forall in Hold.
  assert (Hst : st = Closed) by (apply Hold; eapply list_elem_of_In, list_elem_of_lookup_2, Hlk).
  subst st. now rewrite step_Closed.
Qed.
End SessionFacts.

(** C5.  From any point of a review stream, once the caller aborts, no
    callback fires any more: the callbacks over the whole run are those
    fired before the abort, whatever comes after it, so no later [onEvent]
    and no [onError] for the [AbortError], which the catch block filters
    out; the page state they produce is therefore the one before the
    abort.  On the page, where [doReview] aborts the stream in flight when
    a review is started again, the start leaves the reset state with no
    error reported, and nothing that later reaches an older stream changes
    the page. *)
Theorem abort_stops_callbacks
        (JSON_parse : string -> option StreamEvent)
        (st : StreamState) (before after : list StreamInput) (s : PageState) :
  snd (run JSON_parse st (before ++ Abort :: after)%list) =
    snd (run JSON_parse st before) /\
  fst (run JSON_parse st (before ++ Abort :: after)%list) = Closed /\
  catchHandler AbortError = [] /\
  fold_left (fun acc cb => deliver cb acc)
            (snd (run JSON_parse st (before ++ Abort :: after)%list)) s =
  fold_left (fun acc cb => deliver cb acc) (snd (run JSON_parse st before)) s /\
  (forall trace : list SessionInput,
      page (doReview JSON_parse (sessionRun JSON_parse trace)) =
      doReview_reset (page (sessionRun JSON_parse trace))) /\
  (forall (trace : list SessionInput) (k : nat) (i : StreamInput),
      (1 <= k)%nat ->
      page (feed JSON_parse k i (sessionRun JSON_parse trace)) =
      page (sessionRun JSON_parse trace)).
Proof.
  assert (Hrun : run JSON_parse st (before ++ Abort :: after)%list =
                 (Closed, snd (run JSON_parse st before))).
  { rewrite run_app. simpl. rewrite step_Abort, run_Closed. simpl.
    now rewrite app_nil_r. }
  rewrite Hrun. simpl.
  split; [reflexivity |]. split; [reflexivity |].
  split; [reflexivity |]. split; [reflexivity |].
  split.
  - intros trace. apply doReview_page.
  - intros trace k i Hk. apply feed_older_page; [| exact Hk].
    apply sessionRun_olderClosed.
Qed.

Lemma abort_stops_callbacks_witness :
  page (feed sampleParse 1 (ReadChunk "data: {comment}")
             (sessionRun sampleParse
                [StartReview; StreamInputAt 0 (FetchResolved true true); StartReview])) =
  page (sessionRun sampleParse
          [StartReview; StreamInputAt 0 (FetchResolved true true); StartReview]).
Proof.
  refine (proj2 (proj2 (proj2 (proj2 (proj2
    (abort_stops_callbacks sampleParse AwaitingFetch [] [] initialState)))))
    [StartReview; StreamInputAt 0 (FetchResolved true true); StartReview]
    1%nat (ReadChunk "data: {comment}") _).
  lia.
Defined.

(** Two chunks that split an SSE line between them: both events are
    delivered, in order; with an abort between the chunks only the first
    is. *)
Example stream_chunks_reassembled :
  run sampleParse AwaitingFetch
      [FetchResolved true true;
       ReadChunk (joinLines ["data: {comment}"; ""; "data: {do"]);
       ReadChunk (joinLines ["ne}"; ""; ""]);
       ReadDone]
  = (Closed, [OnEvent (commentEvent editor2); OnEvent (doneEvent "rev-1" 1)]) /\
  run sampleParse AwaitingFetch
      [FetchResolved true true;
       ReadChunk (joinLines ["data: {comment}"; ""; "data: {do"]);
       Abort;
       ReadChunk (joinLines ["ne}"; ""; ""]);
       ReadDone]
  = (Closed, [OnEvent (commentEvent editor2)]) /\
  run sampleParse AwaitingFetch [FetchResolved false true]
  = (Closed, [OnError (Error "Failed to start review")]) /\
  run sampleParse AwaitingFetch
      [FetchResolved true true; ReadChunk "data: {comment}"; ReadRejected networkError]
  = (Closed, [OnError networkError]).
Proof. repeat split. Qed.

(** ** Meta-synthesis preserves its sources *)

Section SynthesisFacts.
Variable engine : SynthesisEngine.

Lemma place_perm (c : Comment) (clusters : list (list Comment)) :
  Permutation (concat (place engine c clusters)) (concat clusters ++ [c])%list.
Proof.
  induction clusters as [| cl rest IH]; simpl; [reflexivity |].
  destruct (existsb (clustersWith engine c) cl); simpl.
  - rewrite <- !app_assoc. apply Permutation_app_head, Permutation_app_comm.
  - rewrite IH. now rewrite app_assoc.
Qed.

Lemma place_nonempty (c : Comment) (clusters : list (list Comment)) :
  Forall (fun cl => cl <> []) clusters ->
  Forall (fun cl => cl <> []) (place engine c clusters).
Proof.
  induction 1 as [| cl rest Hcl H IH]; simpl.
  - constructor; [discriminate | constructor].
  - destruct (existsb (clustersWith engine c) cl).
    + constructor; [now destruct cl | exact H].
    + constructor; [exact Hcl | exact IH].
Qed.

Lemma fold_place_perm (cs : list Comment) (acc : list (list Comment)) :
  Permutation (concat (fold_left (fun a c => place engine c a) cs acc))
              (concat acc ++ cs)%list.
Proof.
  revert acc. induction cs as [| c cs IH]; intros acc; simpl.
  - now rewrite app_nil_r.
  - rewrite IH, place_perm. now rewrite <- app_assoc.
Qed.

Lemma fold_place_nonempty (cs : list Comment) (acc : list (list Comment)) :
  Forall (fun cl => cl <> []) acc ->
  Forall (fun cl => cl <> [])
         (fold_left (fun a c => place engine c a) cs acc).
Proof.
  revert acc. induction cs as [| c cs IH]; intros acc Hacc; simpl; [exact Hacc |].
  apply IH. now apply place_nonempty.
Qed.

Lemma clusterize_partition (cs : list Comment) :
  Permutation (concat (clusterize engine cs)) cs /\
  Forall (fun cl => cl <> []) (clusterize engine cs).
Proof.
  split.
  - unfold clusterize. now rewrite fold_place_perm.
  - apply fold_place_nonempty. constructor.
Qed.

Lemma length_concat_sum {A : Type} (ls : list (list A)) :
  length (concat ls) = list_sum (map (@length A) ls).
Proof.
  induction ls as [| l ls IH]; simpl; [reflexivity |].
  now rewrite length_app, IH.
Qed.

Lemma sources_synthesize (cs : list Comment) :
  map sources (synthesize engine cs)
  = map (map sourceOf) (clusterize engine cs).
Proof. unfold synthesize. rewrite map_map. reflexivity. Qed.
End SynthesisFacts.

(** C3.  On every list of input comments, and whatever the completion
    model judges, the meta-comments of [synthesize] cite the comments of a
    partition of the input into non-empty clusters: the numbers of sources
    add up to the number of input comments, no meta-comment has an empty
    sources list, and all the sources together are the source records of
    the input comments, each the same number of times. *)
Theorem synthesize_source_preserving
        (engine : SynthesisEngine) (cs : list Comment) :
  list_sum (map (fun mc => length (sources mc))
                (synthesize engine cs))
  = length cs /\
  Forall (fun mc => sources mc <> [])
         (synthesize engine cs) /\
  Permutation
    (concat (map sources
                 (synthesize engine cs)))
    (map sourceOf cs) /\
  (exists clusters : list (list Comment),
      Permutation (concat clusters) cs /\
      map sources (synthesize engine cs)
      = map (map sourceOf) clusters).
Proof.
  destruct (clusterize_partition engine cs) as [Hperm Hne].
  assert (Hall : Permutation
            (concat (map sources
               (synthesize engine cs)))
            (map sourceOf cs)).
  { rewrite sources_synthesize, <- concat_map. now apply Permutation_map. }
  split.
  - rewrite <- (length_map sourceOf cs), <- (Permutation_length Hall).
    rewrite length_concat_sum, map_map. reflexivity.
  - split.
    + unfold synthesize. apply Forall_map.
      eapply List.Forall_impl; [| exact Hne].
      intros cl Hcl. simpl. now destruct cl.
    + split; [exact Hall |].
      exists (clusterize engine cs). split; [exact Hperm |].
      apply sources_synthesize.
Qed.

(** The scenario of the design: one comment at lines [2,2] and one at
    [2,3], judged related, merge into one meta-comment spanning [2,3] with
    two sources; a third comment at line 5 stays a singleton. *)
Example synthesize_merges_overlap :
  map (fun mc => (mc_start_line mc, mc_end_line mc, length (sources mc)))
      (sampleSynthesize [editor2; architect2to3; security5])
  = [(2, 3, 2%nat); (5, 5, 1%nat)].
Proof. reflexivity. Qed.

(** ** Reading and writing the cached meta-review *)

Section BackendFacts.
Variable API_BASE_URL : string.
Variable engine : SynthesisEngine.

(** A GET leaves the server as it was. *)
Lemma serveBackend_GET {J} (ep : Endpoint J) (b : Backend) :
  req_method (request_of API_BASE_URL ep) = GET ->
  fst (serveBackend engine J ep b) = b.
Proof.
  destruct ep; simpl; intros Hm; try discriminate; try reflexivity.
  - now destruct (documents b !! id).
  - now destruct (reviewsOf docId b).
Qed.

Lemma perform_GET {J} (call : ApiCall J) (w : World Backend) :
  req_method (request_of API_BASE_URL (endpoint call)) = GET ->
  perform API_BASE_URL Backend (serveBackend engine) call w =
  (mkWorld (server w) (log w ++ [request_of API_BASE_URL (endpoint call)])%list,
   settle call (snd (serveBackend engine J (endpoint call) (server w)))).
Proof.
  intros Hm. unfold perform.
  pose proof (serveBackend_GET (endpoint call) (server w) Hm) as Hsv.
  destruct (serveBackend engine J (endpoint call) (server w)) as [sv r].
  simpl in *. now subst sv.
Qed.

Lemma serveBackend_MetaGet (docId reviewId : string) (b : Backend) :
  settle (fetchMetaComments docId reviewId)
         (snd (serveBackend engine _ (MetaGet docId reviewId) b))
  = Returned (default [] (metaCache b !! (docId, reviewId))).
Proof. reflexivity. Qed.
End BackendFacts.

Section LoadFacts.
Variable API_BASE_URL : string.
Variable engine : SynthesisEngine.

Lemma load_document (docId : string) (b : Backend) (d : Document) :
  documents b !! docId = Some d ->
  settle (fetchDocument docId)
         (snd (serveBackend engine _ (endpoint (fetchDocument docId)) b))
  = Returned d.
Proof. intros H. simpl. now rewrite H. Qed.

Lemma load_personas (b : Backend) :
  settle fetchPersonas (snd (serveBackend engine _ (endpoint fetchPersonas) b))
  = Returned (registry b).
Proof. reflexivity. Qed.

Lemma load_latest_comments (docId : string) (b : Backend)
      (latest : StoredReview) (rest : list StoredReview) :
  reviews b !! docId = Some (latest :: rest) ->
  settle (fetchLatestComments docId)
         (snd (serveBackend engine _ (endpoint (fetchLatestComments docId)) b))
  = Returned (sr_comments latest).
Proof. intros H. simpl. unfold reviewsOf. now rewrite H. Qed.

Lemma load_reviews (docId : string) (b : Backend) :
  settle (fetchReviews docId)
         (snd (serveBackend engine _ (endpoint (fetchReviews docId)) b))
  = Returned (map sr_summary (reviewsOf docId b)).
Proof. reflexivity. Qed.

(** What [loadPage] sends and leaves behind, on every path. *)
Lemma loadPage_reads_only (docId : string) (autoReview : bool) (b : Backend)
      (sent : list Request) (s : PageState) :
  exists new,
    fst (loadPage API_BASE_URL Backend (serveBackend engine) docId autoReview
                  (mkWorld b sent) s)
    = mkWorld b (sent ++ new)%list /\
    Forall (fun r => req_method r = GET) new.
Proof.
  unfold loadPage.
  do 4 (rewrite perform_GET by reflexivity; cbv zeta iota beta; cbn [server log]).
  repeat match goal with
         | |- context [settle ?c ?r] => generalize (settle c r); intro
         end.
  destruct o as [doc | e1], o0 as [p | e2], o1 as [existing | e3], o2 as [revs | e4];
    try (eexists; rewrite <- !app_assoc; split; [reflexivity | repeat constructor]).
  destruct ((0 <? length existing)%nat && negb autoReview);
    [| eexists; rewrite <- !app_assoc; split; [reflexivity | repeat constructor]].
  destruct (List.find _ revs) as [completedReview |];
    [| eexists; rewrite <- !app_assoc; split; [reflexivity | repeat constructor]].
  rewrite perform_GET by reflexivity. cbn [server log].
  match goal with
  | |- context [settle ?c ?r] => generalize (settle c r); intro
  end.
  destruct o as [cached | e5]; [destruct (0 <? length cached)%nat |];
    (eexists; rewrite <- !app_assoc; split; [reflexivity | repeat constructor]).
Qed.

(** The path of a page that has comments and a synthesized review. *)
Lemma loadPage_cached (docId : string) (b : Backend) (sent : list Request)
      (s : PageState) (d : Document) (latest : StoredReview)
      (rest : list StoredReview) (completed : ReviewSummary)
      (cached : list MetaComment) :
  documents b !! docId = Some d ->
  reviews b !! docId = Some (latest :: rest) ->
  sr_comments latest <> [] ->
  List.find (fun r => String.eqb (r_status r) "completed")
            (map sr_summary (latest :: rest)) = Some completed ->
  metaCache b !! (docId, r_id completed) = Some cached ->
  cached <> [] ->
  loadPage API_BASE_URL Backend (serveBackend engine) docId false (mkWorld b sent) s =
  (mkWorld b (sent ++ [request_of API_BASE_URL (DocumentGet docId);
                       request_of API_BASE_URL PersonasGet;
                       request_of API_BASE_URL (LatestCommentsGet docId);
                       request_of API_BASE_URL (ReviewsGet docId);
                       request_of API_BASE_URL (MetaGet docId (r_id completed))])%list,
   setMetaComments cached
     (setCurrentReviewId (Some (r_id completed))
       (setComments (sr_comments latest)
         (setSelectedPersonaIds (map p_id (registry b))
           (setPersonas (registry b) (setDocument (Some d) s)))))).
Proof.
  intros Hdoc Hrev Hcs Hfind Hcache Hne.
  pose proof (load_document _ _ _ Hdoc) as Ld.
  pose proof (load_latest_comments _ _ _ _ Hrev) as Lc.
  pose proof (load_personas b) as Lp.
  pose proof (load_reviews docId b) as Lr.
  unfold loadPage.
  do 4 (rewrite perform_GET by reflexivity; cbv zeta iota beta; cbn [server log]).
  rewrite Ld, Lp, Lc, Lr.
  assert (Hrs : reviewsOf docId b = latest :: rest)
    by (unfold reviewsOf; now rewrite Hrev).
  rewrite Hrs.
  replace (0 <? length (sr_comments latest))%nat with true
    by (symmetry; apply Nat.ltb_lt; destruct (sr_comments latest);
        [congruence | simpl; lia]).
  cbn [andb negb]. rewrite Hfind.
  rewrite perform_GET by reflexivity. cbn [server log].
  rewrite serveBackend_MetaGet, Hcache.
  change (default [] (Some cached)) with cached.
  replace (0 <? length cached)%nat with true
    by (symmetry; apply Nat.ltb_lt; destruct cached; [congruence | simpl; lia]).
  rewrite <- !app_assoc. reflexivity.
Qed.
End LoadFacts.

(** C7.  Against a server that keeps the synthesis of each review in its
    cache, loading the document page sends GET requests only and leaves the
    server as it was: nothing is synthesized and the cache is not written.
    For a document whose latest review has comments and is completed and
    synthesized, the load reads the meta-comments with
    GET .../reviews/{reviewId}/meta and puts the stored set, as it is,
    into the page.  The POST to that URL is sent by [triggerMetaSynthesis],
    and a request that changes the server is a POST. *)
Theorem cached_meta_read_path
        (API_BASE_URL : string) (engine : SynthesisEngine)
        (docId : string) (autoReview : bool) (b : Backend) (sent : list Request)
        (s : PageState) :
  let serve := serveBackend engine in
  (exists new,
      fst (loadPage API_BASE_URL Backend serve docId autoReview (mkWorld b sent) s)
      = mkWorld b (sent ++ new)%list /\
      Forall (fun r => req_method r = GET) new) /\
  (forall d latest rest completed cached,
      documents b !! docId = Some d ->
      reviews b !! docId = Some (latest :: rest) ->
      sr_comments latest <> [] ->
      List.find (fun r => String.eqb (r_status r) "completed")
                (map sr_summary (latest :: rest)) = Some completed ->
      metaCache b !! (docId, r_id completed) = Some cached ->
      cached <> [] ->
      metaComments (snd (loadPage API_BASE_URL Backend serve docId false
                                  (mkWorld b sent) s)) = cached /\
      In (mkRequest GET (API_BASE_URL ++ "/api/v1/reviews/" ++ docId ++ "/reviews/"
                                      ++ r_id completed ++ "/meta"))
         (log (fst (loadPage API_BASE_URL Backend serve docId false
                             (mkWorld b sent) s)))) /\
  (forall reviewId w s1,
      log (fst (triggerMetaSynthesis API_BASE_URL Backend serve docId reviewId w s1)) =
      (log w ++ [mkRequest POST (API_BASE_URL ++ "/api/v1/reviews/" ++ docId
                                              ++ "/reviews/" ++ reviewId ++ "/meta")])%list) /\
  (forall J (ep : Endpoint J) b',
      fst (serve J ep b') <> b' -> req_method (request_of API_BASE_URL ep) = POST).
Proof.
  intros serve. subst serve.
  split; [apply loadPage_reads_only |].
  split.
  - intros d latest rest completed cached Hdoc Hrev Hcs Hfind Hcache Hne.
    rewrite (loadPage_cached API_BASE_URL engine docId b sent s d latest rest completed
               cached Hdoc Hrev Hcs Hfind Hcache Hne).
    split; [reflexivity |].
    cbn [fst log]. apply in_or_app. right. simpl. auto 6.
  - split.
    + intros reviewId w s1. unfold triggerMetaSynthesis, perform.
      destruct (serveBackend _ _ _ _) as [sv r]. reflexivity.
    + intros J ep b' Hchg.
      destruct (req_method (request_of API_BASE_URL ep)) eqn:Hm; [| reflexivity].
      exfalso. apply Hchg. now apply (serveBackend_GET API_BASE_URL).
Qed.

Lemma cached_meta_read_path_witness :
  metaComments (snd (loadPage sampleBaseUrl Backend sampleServe "doc-1" false
                              (mkWorld (sampleBackend true) []) initialState))
  = sampleSynthesize [editor2; architect2to3].
Proof.
  refine (proj1 (proj1 (proj2
    (cached_meta_read_path sampleBaseUrl sampleEngine "doc-1" false (sampleBackend true)
                           [] initialState))
    eightLines sampleReview [] (sr_summary sampleReview)
    (sampleSynthesize [editor2; architect2to3]) _ _ _ _ _ _)).
  - reflexivity.
  - reflexivity.
  - discriminate.
  - reflexivity.
  - reflexivity.
  - discriminate.
Defined.

(** The same load run twice reads the same cached set and the run counter
    of the server stays at one; an explicit request then synthesizes
    again. *)
Example cached_meta_second_read :
  let w0 := mkWorld (sampleBackend true) [] in
  let '(w1, s1) := loadPage sampleBaseUrl Backend sampleServe "doc-1" false w0 initialState in
  let '(w2, s2) := loadPage sampleBaseUrl Backend sampleServe "doc-1" false w1 initialState in
  let '(w3, s3) := triggerMetaSynthesis sampleBaseUrl Backend sampleServe "doc-1" "rev-1" w2 s2 in
  metaComments s2 = metaComments s1 /\
  synthesisRuns (server w2) = 1%nat /\
  synthesisRuns (server w3) = 2%nat /\
  viewMode s3 = meta.
Proof. vm_compute. repeat split. Qed.

(** * Further properties of the front end *)

(** ** The stream consumer over a whole run *)

Lemma onEvent_comments (ev : StreamEvent) (s : PageState) :
  comments (fst (onEvent ev s)) =
  (comments s ++
   (if String.eqb (ev_type ev) "comment"
    then match ev_comment ev with Some c => [c] | None => [] end
    else []))%list.
Proof.
  unfold onEvent.
  destruct (String.eqb (ev_type ev) "persona_status"), (ev_comment ev),
    (String.eqb (ev_type ev) "comment"), (String.eqb (ev_type ev) "done"),
    (truthy (ev_review_id ev)); simpl; now rewrite ?app_nil_r.
Qed.

(** X1.  The comments of the page after any sequence of events are the
    comments it had followed by the comments of the [comment] events, each
    once and in the order of arrival; events of other types, and [comment]
    events without a comment, add nothing. *)
Theorem comments_accumulate_in_arrival_order (evs : list StreamEvent) (s : PageState) :
  comments (consume evs s) =
  (comments s ++
   flat_map (fun ev => if String.eqb (ev_type ev) "comment"
                       then match ev_comment ev with Some c => [c] | None => [] end
                       else []) evs)%list.
Proof.
  induction evs as [| ev evs IH] using rev_ind; simpl.
  - now rewrite app_nil_r.
  - rewrite consume_snoc, onEvent_comments, IH, flat_map_app. simpl.
    now rewrite app_nil_r, app_assoc.
Qed.

Lemma onEvent_isReviewing (ev : StreamEvent) (s : PageState) :
  isReviewing (fst (onEvent ev s)) =
  if String.eqb (ev_type ev) "done" then false else isReviewing s.
Proof.
  unfold onEvent.
  destruct (String.eqb (ev_type ev) "persona_status"), (ev_comment ev),
    (String.eqb (ev_type ev) "comment"), (String.eqb (ev_type ev) "done"),
    (truthy (ev_review_id ev)); reflexivity.
Qed.

Lemma onEvent_currentReviewId (ev : StreamEvent) (s : PageState) :
  currentReviewId (fst (onEvent ev s)) =
  if String.eqb (ev_type ev) "done" && truthy (ev_review_id ev)
  then ev_review_id ev else currentReviewId s.
Proof.
  unfold onEvent.
  destruct (String.eqb (ev_type ev) "persona_status"), (ev_comment ev),
    (String.eqb (ev_type ev) "comment"), (String.eqb (ev_type ev) "done"),
    (truthy (ev_review_id ev)); reflexivity.
Qed.

(** X2.  From the start of a review the page is reviewing exactly until a
    [done] event or a stream error has reached it, whatever else arrives:
    both [onEvent] on [done] and [onError] clear the flag.  The current
    review id is the one of the latest [done] event that carried a
    non-empty id, none before that; a stream error leaves it as it is. *)
Theorem reviewing_until_done_or_error (cbs : list Callback) (s : PageState) :
  isReviewing (deliverAll cbs (doReview_reset s)) =
    negb (existsb (fun cb => match cb with
                             | OnEvent ev => String.eqb (ev_type ev) "done"
                             | OnError _ => true
                             end) cbs) /\
  currentReviewId (deliverAll cbs (doReview_reset s)) =
    match List.find (fun cb => match cb with
                               | OnEvent ev =>
                                   String.eqb (ev_type ev) "done" &&
                                   truthy (ev_review_id ev)
                               | OnError _ => false
                               end) (rev cbs) with
    | Some (OnEvent ev) => ev_review_id ev
    | _ => None
    end.
Proof.
  induction cbs as [| cb cbs [IH1 IH2]] using rev_ind; [split; reflexivity |].
  unfold deliverAll in *. rewrite fold_left_app. simpl.
  rewrite existsb_app, rev_unit. simpl.
  destruct cb as [ev | e]; simpl.
  - rewrite onEvent_isReviewing, onEvent_currentReviewId, IH1, IH2.
    destruct (String.eqb (ev_type ev) "done"); simpl.
    + rewrite orb_true_r. split; [reflexivity |].
      now destruct (truthy (ev_review_id ev)).
    + now rewrite orb_false_r.
  - rewrite orb_true_r. split; [reflexivity | exact IH2].
Qed.

(** X3.  During a review the status map has an entry for a persona id
    exactly when a [persona_status] event for that id has arrived; so the
    progress bar, shown when the map is not empty, appears with the first
    such event. *)
Theorem personaStatuses_keys (evs : list StreamEvent) (s : PageState)
        (pid : option string) :
  is_Some (personaStatuses (consume evs (doReview_reset s)) !! pid) <->
  exists ev, In ev evs /\ ev_type ev = "persona_status" /\ ev_persona_id ev = pid.
Proof.
  rewrite consume_personaStatuses.
  destruct (List.find (statusEventFor pid) (rev evs)) as [ev |] eqn:Hfind.
  - split; [intros _ | eauto].
    apply find_some in Hfind. destruct Hfind as [Hin Hfor].
    unfold statusEventFor in Hfor. apply andb_true_iff in Hfor.
    destruct Hfor as [Hty Hid].
    exists ev. rewrite in_rev. split; [exact Hin |].
    split; [now apply String.eqb_eq | now apply bool_decide_eq_true in Hid].
  - simpl. rewrite lookup_empty. split; [intros [? [=]] |].
    intros (ev & Hin & Hty & Hid). exfalso.
    apply in_rev in Hin. pose proof (find_none _ _ Hfind ev Hin) as Hfor.
    unfold statusEventFor in Hfor. rewrite Hty in Hfor. simpl in Hfor.
    now rewrite bool_decide_eq_true_2 in Hfor.
Qed.

(** ** Which rows are highlighted *)

Lemma forLines_lookup_inside (n : nat) (start : Z) (h : Highlight)
      (m : gmap Z (list Highlight)) (line : Z) :
  start <= line < start + Z.of_nat n ->
  forLines n start h m !! line = Some (default [] (m !! line) ++ [h])%list.
Proof.
  revert start m. induction n as [| n IH]; intros start m Hin; simpl; [lia |].
  destruct (Z.eq_dec line start) as [-> | Hne].
  - rewrite forLines_lookup_outside by lia.
    unfold pushHighlight. apply lookup_insert_eq.
  - rewrite IH by lia. unfold pushHighlight.
    rewrite lookup_insert_ne by lia. reflexivity.
Qed.

Lemma highlightRange_lookup (lo hi : Z) (h : Highlight)
      (m : gmap Z (list Highlight)) (line : Z) :
  default [] (highlightRange lo hi h m !! line) =
  (default [] (m !! line) ++
   (if (lo <=? line)%Z && (line <=? hi)%Z then [h] else []))%list.
Proof.
  destruct (Z.leb_spec lo line) as [Hlo | Hlo], (Z.leb_spec line hi) as [Hhi | Hhi];
    simpl;
    try (rewrite highlightRange_lookup_outside by lia; now rewrite app_nil_r).
  unfold highlightRange. rewrite forLines_lookup_inside by lia. reflexivity.
Qed.

Lemma fold_highlightRange_lookup {A : Type} (lo hi : A -> Z) (hl : A -> Highlight)
      (xs : list A) (m : gmap Z (list Highlight)) (line : Z) :
  default [] (fold_left (fun acc x => highlightRange (lo x) (hi x) (hl x) acc) xs m
              !! line) =
  (default [] (m !! line) ++
   map hl (List.filter (fun x => (lo x <=? line)%Z && (line <=? hi x)%Z) xs))%list.
Proof.
  revert m. induction xs as [| x xs IH]; intros m; simpl.
  - now rewrite app_nil_r.
  - rewrite IH, highlightRange_lookup, <- app_assoc.
    now destruct ((lo x <=? line)%Z && (line <=? hi x)%Z).
Qed.

(** The comments [lineHighlights] keeps are the comments the list keeps. *)
Lemma highlighted_comments_are_listed (f : option string) (cs : list Comment) :
  (if truthy f
   then List.filter (fun c => match f with
                              | Some g => String.eqb (persona_id c) g
                              | None => false
                              end) cs
   else cs) = List.filter (passesFilter f) cs.
Proof.
  destruct (truthy f) eqn:Hf.
  - apply List.filter_ext. intros c. now rewrite truthy_filter_passes.
  - induction cs as [| c cs IH]; simpl; [reflexivity |].
    unfold passesFilter at 1. rewrite Hf. simpl. now f_equal.
Qed.

Lemma lineHighlights_individual (s : PageState) (line : Z) :
  viewMode s = individual \/ metaComments s = [] ->
  default [] (lineHighlights s !! line) =
  map (fun c => mkHighlight (c_id c) (persona_color c))
      (List.filter (fun c => (start_line c <=? line)%Z && (line <=? end_line c)%Z)
                   (List.filter (passesFilter (filterPersona s)) (comments s))).
Proof.
  intros Hmode.
  assert (Hlh : lineHighlights s =
                fold_left highlightComment
                          (List.filter (passesFilter (filterPersona s)) (comments s)) ∅).
  { unfold lineHighlights. rewrite <- highlighted_comments_are_listed.
    destruct Hmode as [-> | ->]; [reflexivity | now destruct (viewMode s)]. }
  rewrite Hlh.
  exact (fold_highlightRange_lookup start_line end_line
           (fun c => mkHighlight (c_id c) (persona_color c)) _ ∅ line).
Qed.

Lemma imap_index_only {A B : Type} (F : nat -> B) (l : list A) :
  imap (fun idx _ => F idx) l = map F (seq 0 (length l)).
Proof.
  revert F. induction l as [| x l IH]; intros F; simpl; [reflexivity |].
  f_equal. rewrite <- seq_shift, map_map. apply (IH (fun idx => F (S idx))).
Qed.

(** X4.  In the individual view, and in the meta view while there are no
    meta-comments, the highlights of a row are those of the listed
    comments (the ones that pass the persona filter) whose range
    [start_line..end_line] contains the row, in order of arrival; the
    document panel shows exactly these, row by row. *)
Theorem highlights_individual_exact (s : PageState) (line : Z) :
  viewMode s = individual \/ metaComments s = [] ->
  default [] (lineHighlights s !! line) =
    map (fun c => mkHighlight (c_id c) (persona_color c))
        (List.filter (fun c => (start_line c <=? line)%Z && (line <=? end_line c)%Z)
                     (List.filter (passesFilter (filterPersona s)) (comments s))) /\
  (forall d, document s = Some d -> truthy (error s) = false ->
     displayedHighlights (render s) =
     map (fun idx =>
            map (fun c => mkHighlight (c_id c) (persona_color c))
                (List.filter (fun c => (start_line c <=? Z.of_nat idx)%Z &&
                                       (Z.of_nat idx <=? end_line c)%Z)
                             (List.filter (passesFilter (filterPersona s)) (comments s))))
         (seq 0 (length (contentLines d)))).
Proof.
  intros Hmode. split; [now apply lineHighlights_individual |].
  intros d Hdoc Herr. unfold render. rewrite Herr, Hdoc. simpl.
  unfold renderLines. rewrite map_imap. simpl.
  rewrite imap_index_only. apply map_ext. intros idx.
  now apply lineHighlights_individual.
Qed.

(** X5.  In the meta view with at least one meta-comment, the highlights
    of a row are those of the meta-comments whose range contains the row,
    in list order and in the colour of their priority, whatever the
    individual comments and the persona filter are. *)
Theorem highlights_meta_exact (s : PageState) (line : Z) :
  viewMode s = meta -> metaComments s <> [] ->
  default [] (lineHighlights s !! line) =
    map (fun mc => mkHighlight (mc_id mc) (priorityColor (priority mc)))
        (List.filter (fun mc => (mc_start_line mc <=? line)%Z &&
                                (line <=? mc_end_line mc)%Z)
                     (metaComments s)).
Proof.
  intros Hmode Hne. unfold lineHighlights. rewrite Hmode.
  destruct (metaComments s) as [| mc mcs] eqn:Hmcs; [congruence |].
  exact (fold_highlightRange_lookup mc_start_line mc_end_line
           (fun mc => mkHighlight (mc_id mc) (priorityColor (priority mc)))
           (mc :: mcs) ∅ line).
Qed.

(** X6.  For a listed comment whose range is not inverted, the row that a
    click on the comment scrolls to, the middle of its range, lies within
    the range and carries the comment's highlight; when the range lies
    within the document, so does that row. *)
Theorem midLine_row_is_highlighted (s : PageState) (c : Comment) :
  viewMode s = individual \/ metaComments s = [] ->
  In c (comments s) -> passesFilter (filterPersona s) c = true ->
  start_line c <= end_line c ->
  start_line c <= midLine (start_line c) (end_line c) <= end_line c /\
  In (mkHighlight (c_id c) (persona_color c))
     (default [] (lineHighlights s !! midLine (start_line c) (end_line c))) /\
  (forall d, 0 <= start_line c ->
             end_line c < Z.of_nat (length (contentLines d)) ->
             0 <= midLine (start_line c) (end_line c) < Z.of_nat (length (contentLines d))).
Proof.
  intros Hmode Hin Hpass Hle.
  assert (Hmid : start_line c <= midLine (start_line c) (end_line c) <= end_line c).
  { unfold midLine. split.
    - apply Z.div_le_lower_bound; lia.
    - apply Z.div_le_upper_bound; lia. }
  split; [exact Hmid |]. split; [| intros d H0 Hn; lia].
  rewrite lineHighlights_individual by exact Hmode.
  apply (in_map (fun c => mkHighlight (c_id c) (persona_color c))).
  apply filter_In. split.
  - apply filter_In. now split.
  - apply andb_true_iff. split; apply Z.leb_le; lia.
Qed.

(** ** The persona filter chips *)

Lemma mapSet_keys {V : Type} (k : string) (v : V) (m : list (string * V)) :
  map fst (mapSet k v m) =
  if includes k (map fst m) then map fst m else (map fst m ++ [k])%list.
Proof.
  induction m as [| [k' v'] m IH]; simpl; [reflexivity |].
  rewrite (String.eqb_sym k k').
  destruct (String.eqb_spec k' k) as [-> | Hne]; simpl; [reflexivity |].
  rewrite IH. now destruct (includes k (map fst m)).
Qed.

Lemma mapSet_values {V : Type} (k : string) (v : V) (m : list (string * V)) (kv : string * V) :
  In kv (mapSet k v m) -> kv = (k, v) \/ In kv m.
Proof.
  induction m as [| [k' v'] m IH]; simpl.
  - intros [<- | []]. now left.
  - destruct (String.eqb k' k); simpl.
    + intros [<- | H]; auto.
    + intros [<- | H]; auto. destruct (IH H); auto.
Qed.

Lemma mapSet_NoDup {V : Type} (k : string) (v : V) (m : list (string * V)) :
  List.NoDup (map fst m) -> List.NoDup (map fst (mapSet k v m)).
Proof.
  intros Hnd. rewrite mapSet_keys.
  destruct (includes k (map fst m)) eqn:Hk; [exact Hnd |].
  apply (Permutation.Permutation_NoDup (Permutation_cons_append _ k)).
  constructor; [now apply includes_false_not_In | exact Hnd].
Qed.

Lemma mapSet_key_In {V : Type} (k : string) (v : V) (m : list (string * V)) (q : string) :
  In q (map fst (mapSet k v m)) <-> q = k \/ In q (map fst m).
Proof.
  rewrite mapSet_keys. destruct (includes k (map fst m)) eqn:Hk.
  - apply includes_In in Hk. split; [auto | intros [-> | H]; auto].
  - rewrite in_app_iff. simpl. split; [intros [H | [<- | []]]; auto |].
    intros [-> | H]; auto.
Qed.

Lemma fold_mapSet_chips (cs : list Comment) (m : list (string * PersonaChip)) :
  let m' := fold_left (fun acc c => mapSet (persona_id c) (chipOf c) acc) cs m in
  (List.NoDup (map fst m) -> List.NoDup (map fst m')) /\
  (forall q, In q (map fst m') <-> In q (map fst m) \/ In q (map persona_id cs)) /\
  (forall kv, In kv m' -> In kv m \/ exists c, In c cs /\ kv = (persona_id c, chipOf c)).
Proof.
  revert m. induction cs as [| c cs IH]; intros m; simpl.
  - split; [auto |]. split; [intros q; tauto | auto].
  - destruct (IH (mapSet (persona_id c) (chipOf c) m)) as (Hnd & Hkeys & Hvals).
    split; [intros H; now apply Hnd, mapSet_NoDup |].
    split.
    + intros q. rewrite Hkeys, mapSet_key_In. intuition.
    + intros kv Hkv. destruct (Hvals kv Hkv) as [Hm | (c' & Hc' & ->)].
      * destruct (mapSet_values _ _ _ _ Hm) as [-> | Hm']; [right | now left].
        exists c. auto.
      * right. exists c'. auto.
Qed.

(** X7.  The filter chips list every persona that has a comment exactly
    once: the chip ids are free of duplicates, an id has a chip exactly
    when some comment is by that persona, and every chip carries the id,
    name and colour of one of that persona's comments. *)
Theorem commentPersonas_unique_and_complete (cs : list Comment) :
  List.NoDup (map chip_id (commentPersonas cs)) /\
  (forall q, In q (map chip_id (commentPersonas cs)) <-> In q (map persona_id cs)) /\
  (forall chip, In chip (commentPersonas cs) -> exists c, In c cs /\ chip = chipOf c) /\
  (length (commentPersonas cs) <= length cs)%nat.
Proof.
  destruct (fold_mapSet_chips cs []) as (Hnd & Hkeys & Hvals). simpl in *.
  assert (Hchips : forall chip, In chip (commentPersonas cs) ->
                                exists c, In c cs /\ chip = chipOf c).
  { intros chip Hin. unfold commentPersonas in Hin.
    apply in_map_iff in Hin. destruct Hin as ([k ch] & <- & Hkv).
    destruct (Hvals _ Hkv) as [[] | (c & Hc & [= -> ->])]. eauto. }
  assert (Hids : map chip_id (commentPersonas cs) =
                 map fst (fold_left (fun acc c => mapSet (persona_id c) (chipOf c) acc)
                                    cs [])).
  { unfold commentPersonas. rewrite map_map. apply map_ext_in.
    intros [k ch] Hkv. destruct (Hvals _ Hkv) as [[] | (c & _ & [= -> ->])].
    reflexivity. }
  assert (Huniq : List.NoDup (map chip_id (commentPersonas cs))).
  { rewrite Hids. apply Hnd. constructor. }
  split; [exact Huniq |].
  split; [intros q; rewrite Hids, Hkeys; simpl; tauto |].
  split; [exact Hchips |].
  rewrite <- (length_map chip_id), <- (length_map persona_id cs).
  apply NoDup_incl_length; [exact Huniq |].
  intros q Hq. rewrite Hids in Hq. apply Hkeys in Hq. simpl in Hq. tauto.
Qed.

(** ** Order of the lists *)

(** X8.  The meta-comments are listed in non-decreasing order of
    [start_line], each once, and that is what the meta view displays. *)
Theorem sortedMetaComments_sorted (s : PageState) :
  StronglySorted (fun a b => mc_start_line a <= mc_start_line b)
                 (sortedMetaComments (metaComments s)) /\
  Permutation (sortedMetaComments (metaComments s)) (metaComments s) /\
  (forall d, document s = Some d -> truthy (error s) = false -> viewMode s = meta ->
     exists lines, render s = MainView lines (MetaPanel (sortedMetaComments (metaComments s)))).
Proof.
  split; [apply (Array_sort_sorted mc_start_line) |].
  split; [apply (Array_sort_perm mc_start_line) |].
  intros d Hdoc Herr Hmode. unfold render, renderPanel.
  rewrite Herr, Hdoc, Hmode. eauto.
Qed.

Lemma sort_insert_filter_key {A : Type} (key : A -> Z) (k : Z) (x : A) (l : list A) :
  List.filter (fun y => (key y =? k)%Z) (sort_insert (fun a b => key a - key b) x l) =
  List.filter (fun y => (key y =? k)%Z) (x :: l).
Proof.
  induction l as [| y l IH]; simpl; [reflexivity |].
  destruct (Z.leb_spec (key x - key y) 0) as [Hle | Hgt]; simpl; [reflexivity |].
  rewrite IH. simpl.
  destruct (Z.eqb_spec (key x) k) as [Hx | Hx], (Z.eqb_spec (key y) k) as [Hy | Hy];
    try reflexivity.
  lia.
Qed.

Lemma Array_sort_filter_key {A : Type} (key : A -> Z) (k : Z) (l : list A) :
  List.filter (fun y => (key y =? k)%Z) (Array_sort (fun a b => key a - key b) l) =
  List.filter (fun y => (key y =? k)%Z) l.
Proof.
  induction l as [| x l IH]; simpl; [reflexivity |].
  rewrite sort_insert_filter_key. simpl. now rewrite IH.
Qed.

(** X9.  Comments that start on the same line are listed in their order
    of arrival: for every line, the listed comments starting there are the
    received ones that pass the filter and start there, in the same
    order. *)
Theorem sortedComments_ties_in_arrival_order
        (cs : list Comment) (f : option string) (line : Z) :
  List.filter (fun c => (start_line c =? line)%Z) (sortedComments cs f) =
  List.filter (fun c => (start_line c =? line)%Z) (List.filter (passesFilter f) cs).
Proof. apply (Array_sort_filter_key start_line). Qed.

(** ** What the stream client delivers *)

Lemma split_nl_nonempty (s : string) : split_nl s <> [].
Proof.
  destruct s as [| c s]; simpl; [discriminate |].
  destruct (Ascii.eqb c LF); [discriminate |].
  destruct (split_nl s); discriminate.
Qed.

Lemma removelast_cons_nonempty {A : Type} (x : A) (l : list A) :
  l <> [] -> removelast (x :: l) = x :: removelast l.
Proof. destruct l; [congruence | reflexivity]. Qed.

Lemma last_cons_nonempty {A : Type} (x d : A) (l : list A) :
  l <> [] -> List.last (x :: l) d = List.last l d.
Proof. destruct l; [congruence | reflexivity]. Qed.

Lemma append_empty_l (s : string) : "" ++ s = s.
Proof. reflexivity. Qed.

Lemma append_String (c : ascii) (s t : string) : String c s ++ t = String c (s ++ t).
Proof. reflexivity. Qed.

Lemma append_empty_r (s : string) : s ++ "" = s.
Proof.
  induction s as [| c s IH]; [reflexivity |]. now rewrite append_String, IH.
Qed.

Lemma append_assoc (s t u : string) : (s ++ t) ++ u = s ++ t ++ u.
Proof.
  induction s as [| c s IH]; [reflexivity |]. now rewrite !append_String, IH.
Qed.

Lemma split_nl_String (c : ascii) (s : string) :
  split_nl (String c s) =
  if Ascii.eqb c LF then EmptyString :: split_nl s
  else match split_nl s with
       | [] => [String c EmptyString]
       | l :: ls => String c l :: ls
       end.
Proof. reflexivity. Qed.

(** Splitting a text that continues the last piece of another. *)
Lemma split_nl_last_piece (t more : string) :
  split_nl (List.last (split_nl t) "" ++ more) =
  match split_nl more with
  | [] => []
  | piece :: rest => (List.last (split_nl t) "" ++ piece) :: rest
  end.
Proof.
  destruct (split_nl more) as [| piece rest] eqn:Hm;
    [now apply split_nl_nonempty in Hm |].
  induction t as [| c t IH].
  - simpl. now rewrite !append_empty_l.
  - rewrite split_nl_String. destruct (Ascii.eqb c LF) eqn:Hc.
    + rewrite last_cons_nonempty by apply split_nl_nonempty. exact IH.
    + destruct (split_nl t) as [| l ls] eqn:Ht; [now apply split_nl_nonempty in Ht |].
      destruct ls as [| l' ls].
      * simpl in IH. simpl List.last.
        now rewrite !append_String, split_nl_String, Hc, IH.
      * exact IH.
Qed.

Lemma split_nl_app (t more : string) :
  split_nl (t ++ more) =
  (removelast (split_nl t) ++ split_nl (List.last (split_nl t) "" ++ more))%list.
Proof.
  induction t as [| c t IH].
  - simpl. now rewrite !append_empty_l.
  - rewrite append_String, !split_nl_String.
    destruct (Ascii.eqb c LF) eqn:Hc.
    + rewrite removelast_cons_nonempty, last_cons_nonempty by apply split_nl_nonempty.
      simpl. now rewrite IH.
    + rewrite IH.
      destruct (split_nl t) as [| l ls] eqn:Ht; [now apply split_nl_nonempty in Ht |].
      destruct ls as [| l' ls].
      * simpl. now rewrite Hc.
      * change (removelast (l :: l' :: ls)) with (l :: removelast (l' :: ls)).
        change (removelast (String c l :: l' :: ls))
          with (String c l :: removelast (l' :: ls)).
        reflexivity.
Qed.

Lemma last_app_nonempty {A : Type} (l l' : list A) (d : A) :
  l' <> [] -> List.last (l ++ l') d = List.last l' d.
Proof.
  intros H. induction l as [| x l IH]; [reflexivity |].
  simpl. destruct (l ++ l')%list eqn:Happ; [| exact IH].
  apply app_eq_nil in Happ. tauto.
Qed.

Section DeliveryFacts.
Variable JSON_parse : string -> option StreamEvent.

(** After the text [t] has been read, the buffer is the piece after its
    last line feed; reading [chunk] delivers the lines that [chunk]
    completes. *)
Lemma processChunk_continues (t chunk : string) :
  processChunk JSON_parse (List.last (split_nl t) "") chunk =
  (List.last (split_nl (t ++ chunk)) "",
   flat_map (processLine JSON_parse)
            (removelast (split_nl (List.last (split_nl t) "" ++ chunk)))) /\
  flat_map (processLine JSON_parse) (removelast (split_nl (t ++ chunk))) =
  (flat_map (processLine JSON_parse) (removelast (split_nl t)) ++
   flat_map (processLine JSON_parse)
            (removelast (split_nl (List.last (split_nl t) "" ++ chunk))))%list.
Proof.
  rewrite (split_nl_app t chunk).
  rewrite last_app_nonempty, removelast_app by apply split_nl_nonempty.
  split; [reflexivity | apply flat_map_app].
Qed.

Lemma run_chunks (t : string) (chunks : list string) :
  run JSON_parse (AwaitingRead (List.last (split_nl t) "")) (map ReadChunk chunks) =
  (AwaitingRead (List.last (split_nl (t ++ String.concat "" chunks)) ""),
   flat_map (processLine JSON_parse)
            (removelast (split_nl (List.last (split_nl t) "" ++ String.concat "" chunks)))).
Proof.
  revert t. induction chunks as [| chunk chunks IH]; intros t.
  - simpl. rewrite !append_empty_r.
    pose proof (split_nl_last_piece t "") as H. rewrite append_empty_r in H.
    rewrite H. reflexivity.
  - assert (Hconcat : String.concat "" (chunk :: chunks) = chunk ++ String.concat "" chunks).
    { simpl. destruct chunks; [now rewrite append_empty_r |].
      now rewrite append_empty_l. }
    rewrite Hconcat.
    change (map ReadChunk (chunk :: chunks))
      with (ReadChunk chunk :: map ReadChunk chunks).
    cbn [run step].
    destruct (processChunk_continues t chunk) as [-> _]. cbv iota beta.
    rewrite (IH (t ++ chunk)), append_assoc. f_equal.
    destruct (processChunk_continues
                (List.last (split_nl t) "" ++ chunk) (String.concat "" chunks))
      as [_ Hsplit].
    rewrite append_assoc in Hsplit. rewrite Hsplit.
    do 4 f_equal.
    rewrite (split_nl_app t chunk).
    now rewrite last_app_nonempty by apply split_nl_nonempty.
Qed.
End DeliveryFacts.

(** X10.  Over a stream that is read to its end, the events delivered are
    those of the lines of the whole text received, in order, that start
    with [data: ] and parse, up to the last line feed: they do not depend
    on where the text was cut into chunks, and what follows the last line
    feed is never delivered. *)
Theorem stream_delivers_complete_lines
        (JSON_parse : string -> option StreamEvent) (chunks : list string) :
  run JSON_parse AwaitingFetch
      (FetchResolved true true :: map ReadChunk chunks ++ [ReadDone])%list =
  (Closed,
   flat_map (processLine JSON_parse)
            (removelast (split_nl (String.concat "" chunks)))) /\
  (forall chunks',
      String.concat "" chunks' = String.concat "" chunks ->
      snd (run JSON_parse AwaitingFetch
               (FetchResolved true true :: map ReadChunk chunks' ++ [ReadDone])%list) =
      snd (run JSON_parse AwaitingFetch
               (FetchResolved true true :: map ReadChunk chunks ++ [ReadDone])%list)).
Proof.
  assert (Hrun : forall cs,
             run JSON_parse AwaitingFetch
                 (FetchResolved true true :: map ReadChunk cs ++ [ReadDone])%list =
             (Closed,
              flat_map (processLine JSON_parse)
                       (removelast (split_nl (String.concat "" cs))))).
  { intros cs. cbn [run step negb].
    rewrite run_app.
    pose proof (run_chunks JSON_parse "" cs) as Hcs.
    simpl List.last in Hcs. rewrite !append_empty_l in Hcs.
    rewrite Hcs. simpl. now rewrite app_nil_r. }
  split; [apply Hrun |].
  intros chunks' Heq. now rewrite !Hrun, Heq.
Qed.

Lemma stream_delivers_complete_lines_witness :
  snd (run sampleParse AwaitingFetch
           (FetchResolved true true
              :: map ReadChunk [joinLines ["data: {comment}"; "data: {do"];
                                joinLines ["ne}"; "data: {comment}"]]
              ++ [ReadDone])%list) =
  snd (run sampleParse AwaitingFetch
           (FetchResolved true true
              :: map ReadChunk [joinLines ["data: {comment}"; "data: {done}";
                                           "data: {comment}"]]
              ++ [ReadDone])%list).
Proof.
  refine (proj2 (stream_delivers_complete_lines sampleParse _) _ _).
  reflexivity.
Defined.

Section CallbackShape.
Variable JSON_parse : string -> option StreamEvent.

Lemma catchHandler_shape (e : JsError) :
  catchHandler e = [] \/
  (catchHandler e = [OnError e] /\ err_name e <> "AbortError").
Proof.
  unfold catchHandler.
  destruct (err_instanceof_Error e); simpl; [| now left].
  destruct (String.eqb_spec (err_name e) "AbortError"); simpl; auto.
Qed.

Lemma processLine_events (line : string) :
  exists evs, processLine JSON_parse line = map OnEvent evs.
Proof.
  unfold processLine. destruct (String.prefix "data: " line); [| now exists []].
  destruct (JSON_parse (slice 6 line)) as [ev |]; [now exists [ev] | now exists []].
Qed.

Lemma processChunk_events (buffer chunk : string) :
  exists evs, snd (processChunk JSON_parse buffer chunk) = map OnEvent evs.
Proof.
  unfold processChunk. simpl.
  induction (removelast (split_nl (buffer ++ chunk))) as [| line lines [evs IH]];
    simpl; [now exists [] |].
  destruct (processLine_events line) as [evs0 ->].
  exists (evs0 ++ evs)%list. now rewrite IH, map_app.
Qed.
End CallbackShape.

(** X11.  Whatever happens to a review stream, its callbacks are a run of
    [onEvent] calls followed by at most one [onError]: an error is
    reported once, it is never an [AbortError], the stream is over when it
    is reported, and no event is delivered after it. *)
Theorem stream_error_is_last
        (JSON_parse : string -> option StreamEvent)
        (st : StreamState) (inputs : list StreamInput) :
  exists evs errs,
    snd (run JSON_parse st inputs) = (map OnEvent evs ++ errs)%list /\
    (errs = [] \/
     exists e, errs = [OnError e] /\ err_name e <> "AbortError" /\
               fst (run JSON_parse st inputs) = Closed).
Proof.
  revert st. induction inputs as [| i rest IH]; intros st.
  - exists [], []. simpl. auto.
  - assert (Hclosed : forall e,
              step JSON_parse st i = (Closed, catchHandler e) ->
              exists evs errs,
                snd (run JSON_parse st (i :: rest)) = (map OnEvent evs ++ errs)%list /\
                (errs = [] \/
                 exists e, errs = [OnError e] /\ err_name e <> "AbortError" /\
                           fst (run JSON_parse st (i :: rest)) = Closed)).
    { intros e Hstep. cbn [run]. rewrite Hstep, run_Closed. simpl.
      exists []. destruct (catchHandler_shape e) as [-> | [-> Hname]].
      - exists []. auto.
      - exists [OnError e]. split; [reflexivity |]. right. eauto. }
    assert (Hquiet : forall st',
              step JSON_parse st i = (st', []) ->
              exists evs errs,
                snd (run JSON_parse st (i :: rest)) = (map OnEvent evs ++ errs)%list /\
                (errs = [] \/
                 exists e, errs = [OnError e] /\ err_name e <> "AbortError" /\
                           fst (run JSON_parse st (i :: rest)) = Closed)).
    { intros st' Hstep. cbn [run]. rewrite Hstep.
      destruct (IH st') as (evs & errs & Hrun & Herrs).
      destruct (run JSON_parse st' rest) as [st'' cbs]. simpl in *.
      exists evs, errs. auto. }
    destruct st as [| buffer |], i as [ok hasBody | e | text | | e |];
      try (apply (Hquiet _ eq_refl));
      try (apply (Hclosed _ eq_refl)).
    + destruct ok; [destruct hasBody |].
      * apply (Hquiet _ eq_refl).
      * apply (Hclosed (Error "No response body") eq_refl).
      * apply (Hclosed (Error "Failed to start review") eq_refl).
    + cbn [run step].
      destruct (processChunk_events JSON_parse buffer text) as [evs0 Hevs0].
      destruct (processChunk JSON_parse buffer text) as [buffer' cbs0].
      simpl in Hevs0. subst cbs0.
      destruct (IH (AwaitingRead buffer')) as (evs & errs & Hrun & Herrs).
      destruct (run JSON_parse (AwaitingRead buffer') rest) as [st'' cbs]. simpl in *.
      exists (evs0 ++ evs)%list, errs. subst cbs.
      split; [now rewrite map_app, app_assoc | exact Herrs].
Qed.

(** ** Loading the page against any server *)

Section LoadAnyServer.
Variable API_BASE_URL : string.
Variable Server : Type.
Variable serve : forall J, Endpoint J -> Server -> Server * FetchResult J.

Lemma perform_unfold {J} (call : ApiCall J) (w : World Server) :
  perform API_BASE_URL Server serve call w =
  (mkWorld (fst (serve J (endpoint call) (server w)))
           (log w ++ [request_of API_BASE_URL (endpoint call)])%list,
   settle call (snd (serve J (endpoint call) (server w)))).
Proof.
  unfold perform. now destruct (serve J (endpoint call) (server w)).
Qed.
End LoadAnyServer.

(** X12.  The load effect of the page (its first [useEffect]: the
    [Promise.all] of four fetches and the continuation) sends, whatever
    the server answers, the four GET requests for the document, the
    personas, the latest comments and the reviews, in that order, and
    after them at most one more request, a GET of the meta-comments of one
    review; when the page was opened with [autoReview] it sends none after
    the four.  This effect sends no POST.  The statement is about this
    effect alone: the review that the second effect starts on
    [autoReview], with its POST, is not part of it. *)
Theorem loadPage_sends_only_GETs
        (API_BASE_URL : string) (Server : Type)
        (serve : forall J, Endpoint J -> Server -> Server * FetchResult J)
        (docId : string) (autoReview : bool) (w : World Server) (s : PageState) :
  exists extra,
    log (fst (loadPage API_BASE_URL Server serve docId autoReview w s)) =
    (log w ++ [request_of API_BASE_URL (DocumentGet docId);
               request_of API_BASE_URL PersonasGet;
               request_of API_BASE_URL (LatestCommentsGet docId);
               request_of API_BASE_URL (ReviewsGet docId)] ++ extra)%list /\
    (extra = [] \/
     exists reviewId, extra = [request_of API_BASE_URL (MetaGet docId reviewId)]) /\
    (autoReview = true -> extra = []) /\
    Forall (fun r => req_method r = GET) extra.
Proof.
  unfold loadPage.
  do 4 (rewrite perform_unfold; cbv zeta iota beta; cbn [server log]).
  repeat match goal with
         | |- context [settle ?c ?r] => generalize (settle c r); intro
         end.
  destruct o as [doc | e1], o0 as [p | e2], o1 as [existing | e3], o2 as [revs | e4];
    try (exists []; simpl; rewrite <- !app_assoc; simpl; now auto).
  destruct (0 <? length existing)%nat; simpl; [| exists []; simpl; rewrite <- !app_assoc; simpl; now auto].
  destruct autoReview; simpl; [exists []; simpl; rewrite <- !app_assoc; simpl; now auto |].
  destruct (List.find _ revs) as [completedReview |]; [| exists []; simpl; rewrite <- !app_assoc; simpl; now auto].
  rewrite perform_unfold. cbn [server log].
  exists [request_of API_BASE_URL (MetaGet docId (r_id completedReview))].
  split.
  - match goal with
    | |- context [settle ?c ?r] => destruct (settle c r) as [cached | e5]
    end; [destruct (0 <? length cached)%nat |];
      simpl; rewrite <- !app_assoc; reflexivity.
  - split; [right; eauto |]. split; [discriminate |]. repeat constructor.
Qed.

(** X13.  When the bodies of the server's ok responses have the types
    lib/api.ts declares for them, the load effect of the page (its first
    [useEffect]) ends in one of two ways: only the error message is set
    and the rest of the state is as it was (one of the four calls threw),
    or the document, the personas and the selection of all personas are
    set and this effect leaves the error, the view mode, the filter and
    the reviewing flag untouched.  In the second case with [autoReview],
    this effect loads no stored comments or meta-comments.  The statement
    is about this effect alone, not about the review the second effect
    starts on [autoReview]. *)
Theorem loadPage_all_or_nothing
        (API_BASE_URL : string) (Server : Type)
        (serve : forall J, Endpoint J -> Server -> Server * FetchResult J)
        (docId : string) (autoReview : bool) (w : World Server) (s : PageState) :
  (exists msg,
      snd (loadPage API_BASE_URL Server serve docId autoReview w s) =
      setError (Some msg) s) \/
  (exists doc p,
      document (snd (loadPage API_BASE_URL Server serve docId autoReview w s)) = Some doc /\
      personas (snd (loadPage API_BASE_URL Server serve docId autoReview w s)) = p /\
      selectedPersonaIds (snd (loadPage API_BASE_URL Server serve docId autoReview w s))
      = map p_id p /\
      error (snd (loadPage API_BASE_URL Server serve docId autoReview w s)) = error s /\
      viewMode (snd (loadPage API_BASE_URL Server serve docId autoReview w s)) = viewMode s /\
      filterPersona (snd (loadPage API_BASE_URL Server serve docId autoReview w s))
      = filterPersona s /\
      isReviewing (snd (loadPage API_BASE_URL Server serve docId autoReview w s))
      = isReviewing s /\
      (autoReview = true ->
       comments (snd (loadPage API_BASE_URL Server serve docId autoReview w s))
       = comments s /\
       metaComments (snd (loadPage API_BASE_URL Server serve docId autoReview w s))
       = metaComments s /\
       currentReviewId (snd (loadPage API_BASE_URL Server serve docId autoReview w s))
       = currentReviewId s)).
Proof.
  unfold loadPage.
  do 4 (rewrite perform_unfold; cbv zeta iota beta; cbn [server log]).
  repeat match goal with
         | |- context [settle ?c ?r] => generalize (settle c r); intro
         end.
  destruct o as [doc | e1], o0 as [p | e2], o1 as [existing | e3], o2 as [revs | e4];
    try (left; eexists; reflexivity).
  right. exists doc, p.
  destruct (0 <? length existing)%nat; simpl; [| repeat split; reflexivity].
  destruct autoReview; simpl; [repeat split; reflexivity |].
  destruct (List.find _ revs) as [completedReview |];
    [| repeat split; try reflexivity; intros; discriminate].
  rewrite perform_unfold. cbn [server log].
  match goal with
  | |- context [settle ?c ?r] => destruct (settle c r) as [cached | e5]
  end; [destruct (0 <? length cached)%nat |];
    simpl; repeat split; try reflexivity; intros; discriminate.
Qed.

(** ** Toggling a selection *)

(** X14.  One [togglePersona(p)] flips whether [p] is selected and leaves
    every other id as it was, on any selection; on a duplicate-free
    selection it changes the number of selected personas by exactly
    one. *)
Theorem togglePersona_flips (p : string) (l : list string) :
  includes p (togglePersona p l) = negb (includes p l) /\
  (forall q, q <> p -> includes q (togglePersona p l) = includes q l) /\
  (List.NoDup l ->
   length (togglePersona p l) =
   if includes p l then (length l - 1)%nat else (length l + 1)%nat).
Proof.
  assert (Hbool : forall q m, includes q m = true <-> In q m) by apply includes_In.
  assert (Heq : forall a b : bool, (a = true <-> b = true) -> a = b).
  { intros [] [] [H1 H2]; try reflexivity;
      [symmetry; now apply H1 | now apply H2]. }
  split; [| split].
  - apply Heq. rewrite negb_true_iff, includes_false_not_In, Hbool.
    unfold togglePersona. destruct (includes p l) eqn:Hp.
    + rewrite filter_other_In. apply includes_In in Hp. tauto.
    + apply includes_false_not_In in Hp. rewrite in_app_iff. simpl. tauto.
  - intros q Hq. apply Heq. rewrite !Hbool.
    unfold togglePersona. destruct (includes p l).
    + rewrite filter_other_In. tauto.
    + rewrite in_app_iff. simpl. split; [intros [H | [H | []]]; congruence | auto].
  - intros Hnd. unfold togglePersona. destruct (includes p l) eqn:Hp.
    + apply includes_In in Hp.
      pose proof (Permutation_length (filter_present_perm p l Hnd Hp)) as Hlen.
      rewrite length_app in Hlen. simpl in Hlen. lia.
    + now rewrite length_app.
Qed.

Lemma togglePersona_flips_witness :
  length (togglePersona "editor" ["architect"; "editor"]) = 1%nat.
Proof.
  refine (proj2 (proj2 (togglePersona_flips "editor" ["architect"; "editor"])) _).
  repeat constructor; simpl; intuition congruence.
Defined.

(** X15.  On the documents page, [toggleSelect(id)] flips whether [id] is
    selected and nothing else, changes the number of selected documents by
    one, and applied twice gives back the same selection. *)
Theorem toggleSelect_involutive (id : string) (sel : gset string) :
  toggleSelect id (toggleSelect id sel) = sel /\
  (id ∈ toggleSelect id sel <-> id ∉ sel) /\
  (forall other, other <> id -> (other ∈ toggleSelect id sel <-> other ∈ sel)) /\
  size (toggleSelect id sel) =
  (if decide (id ∈ sel) then size sel - 1 else size sel + 1)%nat.
Proof.
  unfold toggleSelect. destruct (decide (id ∈ sel)) as [Hin | Hout].
  - split.
    { rewrite decide_False by set_solver.
      apply set_eq. intros x. destruct (decide (x = id)); set_solver. }
    split; [set_solver |]. split; [set_solver |].
    rewrite size_difference by set_solver. now rewrite size_singleton.
  - split.
    { rewrite decide_True by set_solver. set_solver. }
    split; [set_solver |]. split; [set_solver |].
    rewrite size_union by set_solver. now rewrite size_singleton.
Qed.

(** X16.  When the listed documents have distinct ids and only listed
    documents are selected, [toggleSelectAll] clears the selection if every
    document is selected and selects every document otherwise; so from any
    partial selection two applications leave nothing selected. *)
Theorem toggleSelectAll_all_or_none (sel : gset string) (docs : list Document) :
  List.NoDup (map doc_id docs) ->
  sel ⊆ list_to_set (map doc_id docs) ->
  toggleSelectAll sel docs =
    (if decide (sel = list_to_set (map doc_id docs)) then ∅
     else list_to_set (map doc_id docs)) /\
  toggleSelectAll (toggleSelectAll sel docs) docs =
    (if decide (docs = []) then ∅
     else if decide (sel = list_to_set (map doc_id docs))
          then list_to_set (map doc_id docs) else ∅).
Proof.
  intros Hnd Hsub.
  assert (Hsize : size (list_to_set (map doc_id docs) : gset string) = length docs).
  { rewrite size_list_to_set by now apply NoDup_ListNoDup.
    apply length_map. }
  assert (Hfull : forall sel' : gset string,
            sel' ⊆ list_to_set (map doc_id docs) ->
            toggleSelectAll sel' docs =
            if decide (sel' = list_to_set (map doc_id docs)) then ∅
            else list_to_set (map doc_id docs)).
  { intros sel' Hsub'. unfold toggleSelectAll.
    destruct (Nat.eqb_spec (size sel') (length docs)) as [Heq | Hne].
    - assert (Hall : sel' = list_to_set (map doc_id docs)).
      { apply set_subseteq_size_eq; [exact Hsub' |].
        rewrite Hsize, Heq. reflexivity. }
      now rewrite decide_True.
    - assert (Hpart : sel' <> list_to_set (map doc_id docs)).
      { intros ->. now rewrite Hsize in Hne. }
      now rewrite decide_False. }
  split; [now apply Hfull |].
  rewrite (Hfull sel Hsub).
  destruct (decide (sel = list_to_set (map doc_id docs))) as [Hall | Hpart].
  - rewrite Hfull by set_solver.
    destruct (decide (docs = [])) as [-> | Hdocs]; simpl.
    + now rewrite decide_True.
    + rewrite decide_False; [reflexivity |].
      intros Hempty. apply (f_equal size) in Hempty.
      rewrite size_empty, Hsize in Hempty. destruct docs; [congruence | discriminate].
  - rewrite Hfull by set_solver. rewrite decide_True by reflexivity.
    now destruct (decide (docs = [])).
Qed.

(** ** Dropping files on the home page *)

Lemma find_filter_head {A : Type} (p : A -> bool) (l : list A) :
  List.find p l = match List.filter p l with
                  | [] => None
                  | x :: _ => Some x
                  end.
Proof.
  induction l as [| x l IH]; simpl; [reflexivity |]. now destruct (p x).
Qed.

(** X17.  A drop uploads at most one file: the first dropped file whose
    name ends in [.md], and nothing when there is none (the status then
    asks for a markdown file).  A file with another name is never
    uploaded, the refusal of [handleFile] is never reached from a drop,
    and the page navigates only to the document the upload of that file
    created, with [autoReview] set. *)
Theorem handleDrop_only_markdown
        (uploadFile : File -> Outcome UploadResult) (dropped : list File)
        (st : HomeState) :
  let out := handleDrop uploadFile dropped st in
  uploaded out =
    match List.find (fun f => endsWith (file_name f) ".md") dropped with
    | Some f => [f]
    | None => []
    end /\
  Forall (fun f => endsWith (file_name f) ".md" = true /\ In f dropped) (uploaded out) /\
  uploadStatus (home out) <> Some "Only .md files accepted" /\
  isDragging (home out) = false /\
  (forall url, pushed out = Some url ->
     exists f r,
       List.find (fun f => endsWith (file_name f) ".md") dropped = Some f /\
       uploadFile f = Returned r /\
       url = "/documents/" ++ document_id r ++ "?autoReview=true") /\
  (List.find (fun f => endsWith (file_name f) ".md") dropped = None ->
   pushed out = None /\
   uploadStatus (home out) = Some "Drop a markdown file" /\
   isUploading (home out) = isUploading st).
Proof.
  intros out. subst out. unfold handleDrop. rewrite find_filter_head.
  destruct (List.filter (fun f => endsWith (file_name f) ".md") dropped)
    as [| first others] eqn:Hfilter.
  - simpl. repeat split; try discriminate; auto.
  - assert (Hfirst : In first dropped /\ endsWith (file_name first) ".md" = true).
    { apply (proj1 (filter_In (fun f => endsWith (file_name f) ".md") first dropped)).
      rewrite Hfilter. now left. }
    destruct Hfirst as [Hin Hmd].
    unfold handleFile. rewrite Hmd. simpl.
    destruct (uploadFile first) as [r | e] eqn:Hup; simpl.
    + repeat split; try discriminate; auto.
      intros url [= <-]. eauto.
    + repeat split; try discriminate; auto.
Qed.

Lemma handleDrop_only_markdown_witness :
  uploadStatus
    (home (handleDrop (fun f => Returned (mkUploadResult "doc-9" (file_name f)))
                      [mkFile "logo.png" ""; mkFile "README.MD" "# Upper case"]
                      (mkHomeState true false None)))
  = Some "Drop a markdown file".
Proof.
  refine (proj1 (proj2 (proj2 (proj2 (proj2 (proj2 (proj2
    (handleDrop_only_markdown
       (fun f => Returned (mkUploadResult "doc-9" (file_name f)))
       [mkFile "logo.png" ""; mkFile "README.MD" "# Upper case"]
       (mkHomeState true false None)))))) _))).
  reflexivity.
Defined.

(** A drop of an image and two markdown files uploads the first markdown
    file and opens its document for review. *)
Example handleDrop_first_markdown :
  handleDrop (fun f => Returned (mkUploadResult "doc-9" (file_name f)))
             [mkFile "logo.png" ""; mkFile "notes.md" "# Notes"; mkFile "b.md" "# B"]
             (mkHomeState true false None)
  = mkHomeOutcome (mkHomeState false true (Some "Starting review..."))
                  [mkFile "notes.md" "# Notes"]
                  (Some "/documents/doc-9?autoReview=true").
Proof. reflexivity. Qed.

(** ** A review started again *)

Section RestartFacts.
Variable JSON_parse : string -> option StreamEvent.

Lemma deliverAll_app (xs ys : list Callback) (s : PageState) :
  deliverAll (xs ++ ys) s = deliverAll ys (deliverAll xs s).
Proof. unfold deliverAll. apply fold_left_app. Qed.

Lemma deliverAll_comments (cbs : list Callback) (s : PageState) :
  comments (deliverAll cbs s) =
  (comments s ++
   flat_map (fun cb => match cb with
                       | OnEvent ev =>
                           if String.eqb (ev_type ev) "comment"
                           then match ev_comment ev with Some c => [c] | None => [] end
                           else []
                       | OnError _ => []
                       end) cbs)%list.
Proof.
  revert s. induction cbs as [| cb cbs IH]; intros s.
  - simpl. now rewrite app_nil_r.
  - change (deliverAll (cb :: cbs) s) with (deliverAll cbs (deliver cb s)).
    rewrite IH. simpl. rewrite app_assoc. f_equal.
    destruct cb as [ev | e]; simpl; [apply onEvent_comments | now rewrite app_nil_r].
Qed.

(** The newest stream and the page, after inputs that follow a start. *)
Lemma inputs_after_start (sess : Session) (inputs : list (nat * StreamInput)) :
  olderClosed sess ->
  let sess' := fold_left (sessionStep JSON_parse)
                         (map (fun ki => StreamInputAt (fst ki) (snd ki)) inputs)
                         (doReview JSON_parse sess) in
  let newest := run JSON_parse AwaitingFetch
                    (map snd (List.filter (fun ki => (fst ki =? 0)%nat) inputs)) in
  olderClosed sess' /\
  hd_error (streams sess') = Some (fst newest) /\
  page sess' = deliverAll (snd newest) (doReview_reset (page sess)).
Proof.
  intros Hold. induction inputs as [| [k i] inputs IH] using rev_ind.
  - simpl. split; [now apply doReview_olderClosed |].
    split; [| apply doReview_page].
    unfold doReview. destruct (streams sess); [reflexivity |].
    now rewrite step_Abort.
  - destruct IH as (Hclosed & Hhead & Hpage).
    rewrite map_app, fold_left_app, List.filter_app, map_app. simpl.
    set (before := fold_left (sessionStep JSON_parse)
                     (map (fun ki => StreamInputAt (fst ki) (snd ki)) inputs)
                     (doReview JSON_parse sess)) in *.
    split; [now apply feed_olderClosed |].
    destruct k as [| k]; simpl.
    + rewrite run_app. simpl.
      destruct (streams before) as [| st older] eqn:Hstreams; [discriminate |].
      injection Hhead as Hst.
      unfold feed. rewrite Hstreams. simpl. rewrite <- Hst.
      destruct (step JSON_parse st i) as [st' cbs]. simpl.
      rewrite app_nil_r, deliverAll_app, <- Hpage. auto.
    + rewrite app_nil_r.
      split; [| rewrite <- Hpage; apply feed_older_page; [exact Hclosed | lia]].
      rewrite <- Hhead. unfold feed.
      destruct (streams before !! S k) as [st |] eqn:Hk; [| reflexivity].
      destruct (step JSON_parse st i) as [st' cbs]. simpl.
      now destruct (streams before).
Qed.
End RestartFacts.

(** X18.  After a review is started again, whatever had happened before
    and whatever reaches the streams afterwards, the comments on the page
    are exactly the comments delivered by the new stream, in order:
    nothing of an earlier review is left and nothing an older stream
    receives is added. *)
Theorem restart_shows_only_new_comments
        (JSON_parse : string -> option StreamEvent)
        (trace : list SessionInput) (inputs : list (nat * StreamInput)) :
  comments
    (page (fold_left (sessionStep JSON_parse)
                     (map (fun ki => StreamInputAt (fst ki) (snd ki)) inputs)
                     (doReview JSON_parse (sessionRun JSON_parse trace)))) =
  flat_map (fun cb => match cb with
                      | OnEvent ev =>
                          if String.eqb (ev_type ev) "comment"
                          then match ev_comment ev with Some c => [c] | None => [] end
                          else []
                      | OnError _ => []
                      end)
           (snd (run JSON_parse AwaitingFetch
                     (map snd (List.filter (fun ki => (fst ki =? 0)%nat) inputs)))).
Proof.
  destruct (inputs_after_start JSON_parse (sessionRun JSON_parse trace) inputs
              (sessionRun_olderClosed JSON_parse trace)) as (_ & _ & Hpage).
  rewrite Hpage, deliverAll_comments. reflexivity.
Qed.

(** ** Instances *)

Lemma highlights_individual_witness :
  default [] (lineHighlights threeComments !! 2) =
  [mkHighlight "c-2" "#22c55e"; mkHighlight "c-3" "#3b82f6"].
Proof.
  refine (proj1 (highlights_individual_exact threeComments 2 _)).
  left. reflexivity.
Defined.

Lemma highlights_meta_witness :
  default [] (lineHighlights synthesized !! 3) = [mkHighlight "meta-1" "#f97316"].
Proof.
  refine (highlights_meta_exact synthesized 3 _ _).
  - reflexivity.
  - discriminate.
Defined.

Lemma midLine_row_witness :
  In (mkHighlight "c-3" "#3b82f6")
     (default [] (lineHighlights threeComments
                   !! midLine (start_line architect2to3) (end_line architect2to3))).
Proof.
  refine (proj1 (proj2
    (midLine_row_is_highlighted threeComments architect2to3 _ _ _ _))).
  - left. reflexivity.
  - right. left. reflexivity.
  - reflexivity.
  - vm_compute. discriminate.
Defined.

Lemma commentPersonas_witness :
  exists c, In c [editor2; architect2to3; security5] /\
            mkPersonaChip "architect" "Technical Architect" "#3b82f6" = chipOf c.
Proof.
  refine (proj1 (proj2 (proj2
    (commentPersonas_unique_and_complete [editor2; architect2to3; security5]))) _ _).
  right. left. reflexivity.
Defined.

Lemma sortedMetaComments_witness :
  exists lines,
    render synthesized = MainView lines (MetaPanel (sortedMetaComments (metaComments synthesized))).
Proof.
  refine (proj2 (proj2 (sortedMetaComments_sorted synthesized)) eightLines _ _ _);
    reflexivity.
Defined.

Lemma loadPage_sends_only_GETs_witness :
  log (fst (loadPage sampleBaseUrl Backend sampleServe "doc-1" true
                     (mkWorld staffedBackend []) initialState)) =
  [request_of sampleBaseUrl (DocumentGet "doc-1");
   request_of sampleBaseUrl PersonasGet;
   request_of sampleBaseUrl (LatestCommentsGet "doc-1");
   request_of sampleBaseUrl (ReviewsGet "doc-1")].
Proof.
  destruct (loadPage_sends_only_GETs sampleBaseUrl Backend sampleServe "doc-1" true
              (mkWorld staffedBackend []) initialState)
    as (extra & Hlog & _ & Hauto & _).
  rewrite (Hauto eq_refl) in Hlog. exact Hlog.
Defined.

Lemma loadPage_all_or_nothing_witness :
  comments (snd (loadPage sampleBaseUrl Backend sampleServe "doc-1" true
                          (mkWorld staffedBackend []) initialState)) = [].
Proof.
  destruct (loadPage_all_or_nothing sampleBaseUrl Backend sampleServe "doc-1" true
              (mkWorld staffedBackend []) initialState)
    as [[msg Hfail] | (doc & p & _ & _ & _ & _ & _ & _ & _ & Hauto)].
  - apply (f_equal document) in Hfail. vm_compute in Hfail. discriminate.
  - exact (proj1 (Hauto eq_refl)).
Defined.

(** Opened without [autoReview] on a server that holds a completed
    review, the load effect sends a fifth request, the GET of that
    review's meta-comments. *)
Example loadPage_reads_cached_meta :
  map req_method
      (log (fst (loadPage sampleBaseUrl Backend sampleServe "doc-1" false
                          (mkWorld staffedBackend []) initialState))) =
  [GET; GET; GET; GET; GET] /\
  personas (snd (loadPage sampleBaseUrl Backend sampleServe "doc-1" false
                          (mkWorld staffedBackend []) initialState)) =
  [architectPersona; editorPersona].
Proof. split; vm_compute; reflexivity. Qed.

Lemma toggleSelect_witness :
  "doc-2" ∈ toggleSelect "doc-1" {["doc-1"; "doc-2"]} <->
  "doc-2" ∈ ({["doc-1"; "doc-2"]} : gset string).
Proof.
  refine (proj1 (proj2 (proj2 (toggleSelect_involutive "doc-1" {["doc-1"; "doc-2"]})))
                "doc-2" _).
  discriminate.
Defined.

Lemma toggleSelectAll_witness :
  toggleSelectAll {["doc-1"]} [eightLines; secondDocument] =
  (if decide (({["doc-1"]} : gset string) =
              list_to_set (map doc_id [eightLines; secondDocument]))
   then ∅ else list_to_set (map doc_id [eightLines; secondDocument])).
Proof.
  refine (proj1 (toggleSelectAll_all_or_none {["doc-1"]} [eightLines; secondDocument] _ _)).
  - repeat constructor; simpl; intuition congruence.
  - simpl. set_solver.
Defined.

(** * The review stream, end to end *)

(** ** Interleavings *)

Lemma Shuffle_app {A : Type} (l1 l2 : list A) : Shuffle l1 l2 (l1 ++ l2)%list.
Proof.
  induction l1 as [| x l1 IH]; simpl; [| now constructor].
  induction l2 as [| y l2 IH]; now constructor.
Qed.

Lemma Interleaving_concat {A : Type} (strands : list (list A)) :
  Interleaving strands (concat strands).
Proof.
  induction strands as [| strand strands IH]; simpl; [constructor |].
  econstructor; [apply Shuffle_app | exact IH].
Qed.

Lemma Shuffle_perm {A : Type} (l1 l2 l : list A) :
  Shuffle l1 l2 l -> Permutation l (l1 ++ l2)%list.
Proof.
  induction 1 as [| x l1 l2 l _ IH | x l1 l2 l _ IH]; simpl.
  - reflexivity.
  - now constructor.
  - now apply Permutation_cons_app.
Qed.

Lemma Interleaving_perm {A : Type} (strands : list (list A)) (l : list A) :
  Interleaving strands l -> Permutation l (concat strands).
Proof.
  induction 1 as [| strand strands rest l Hsh _ IH]; simpl; [reflexivity |].
  rewrite (Shuffle_perm _ _ _ Hsh). now apply Permutation_app_head.
Qed.

Lemma Shuffle_filter {A : Type} (f : A -> bool) (l1 l2 l : list A) :
  Shuffle l1 l2 l -> Shuffle (List.filter f l1) (List.filter f l2) (List.filter f l).
Proof.
  induction 1 as [| x l1 l2 l _ IH | x l1 l2 l _ IH]; simpl;
    [constructor | destruct (f x); [now constructor | exact IH] ..].
Qed.

Lemma Interleaving_filter {A : Type} (f : A -> bool) (strands : list (list A))
      (l : list A) :
  Interleaving strands l -> Interleaving (map (List.filter f) strands) (List.filter f l).
Proof.
  induction 1 as [| strand strands rest l Hsh _ IH]; simpl; [constructor |].
  econstructor; [apply Shuffle_filter, Hsh | exact IH].
Qed.

Lemma Shuffle_nil_l {A : Type} (l2 l : list A) : Shuffle [] l2 l -> l = l2.
Proof.
  intros H. remember [] as l1 eqn:Hl1.
  induction H as [| x l1 l2 l _ IH | x l1 l2 l _ IH];
    [reflexivity | discriminate | f_equal; now apply IH].
Qed.

Lemma Shuffle_nil_r {A : Type} (l1 l : list A) : Shuffle l1 [] l -> l = l1.
Proof.
  intros H. remember [] as l2 eqn:Hl2.
  induction H as [| x l1 l2 l _ IH | x l1 l2 l _ IH];
    [reflexivity | f_equal; now apply IH | discriminate].
Qed.

Lemma Interleaving_all_nil {A : Type} (strands : list (list A)) (l : list A) :
  Forall (eq []) strands -> Interleaving strands l -> l = [].
Proof.
  intros Hnil H. induction H as [| strand strands rest l Hsh _ IH]; [reflexivity |].
  inversion Hnil as [| ? ? Hstrand Hrest]; subst.
  specialize (IH Hrest). subst rest. now apply Shuffle_nil_l in Hsh.
Qed.

(** When all the strands but one are empty, the interleaving is that
    one. *)
Lemma Interleaving_single {A : Type} (before after : list (list A)) (mid l : list A) :
  Forall (eq []) before -> Forall (eq []) after ->
  Interleaving (before ++ mid :: after)%list l -> l = mid.
Proof.
  intros Hbefore Hafter. revert l.
  induction Hbefore as [| strand before <- _ IH]; simpl; intros l H;
    inversion H as [| ? ? rest ? Hsh Hrest]; subst.
  - apply (Interleaving_all_nil _ _ Hafter) in Hrest. subst rest.
    now apply Shuffle_nil_r in Hsh.
  - apply Shuffle_nil_l in Hsh. subst rest. now apply IH.
Qed.

Lemma find_rev_last {A : Type} (f : A -> bool) (l xs : list A) (x : A) :
  List.filter f l = (xs ++ [x])%list -> List.find f (rev l) = Some x.
Proof.
  intros Hf. rewrite find_filter_head.
  assert (Hrev : List.filter f (rev l) = rev (List.filter f l)).
  { clear Hf. induction l as [| y l IH]; simpl; [reflexivity |].
    rewrite List.filter_app, IH. simpl.
    destruct (f y); simpl; [reflexivity | now rewrite app_nil_r]. }
  now rewrite Hrev, Hf, rev_unit.
Qed.

(** ** The streams of a review *)

Lemma sequentialStream_ReviewStream (run : ReviewRun) (lineCount : Z)
      (results : list PersonaResult) :
  ReviewStream run lineCount results (sequentialStream run lineCount results).
Proof.
  exists (concat (reviewStrands run lineCount results)).
  split; [apply Interleaving_concat | reflexivity].
Qed.

Lemma reviewStrands_app (run : ReviewRun) (lineCount : Z) (r1 r2 : list PersonaResult)
      (pr : PersonaResult) :
  reviewStrands run lineCount (r1 ++ pr :: r2)%list =
  (reviewStrands run lineCount r1 ++
   statusStrand pr :: commentStrand run lineCount pr :: reviewStrands run lineCount r2)%list.
Proof. unfold reviewStrands. now rewrite flat_map_app. Qed.

Lemma Forall_imap_In {A B : Type} (P : B -> Prop) (f : nat -> A -> B) (l : list A) :
  (forall i x, In x l -> P (f i x)) -> Forall P (imap f l).
Proof.
  revert f. induction l as [| x l IH]; intros f H; simpl; constructor.
  - apply H. now left.
  - apply IH. intros i y Hy. apply H. now right.
Qed.

(** Every comment the orchestrator emits lies within the document. *)
Lemma personaComments_in_range (run : ReviewRun) (lineCount : Z) (pr : PersonaResult) :
  Forall (fun c => 0 <= start_line c <= end_line c /\ end_line c < lineCount)
         (personaComments run lineCount pr).
Proof.
  unfold personaComments. destruct (snd pr) as [reported |]; [| constructor].
  apply Forall_imap_In. intros i rc Hin. simpl.
  apply filter_In in Hin. destruct Hin as [_ Hok].
  unfold rangeAccepted in Hok.
  apply andb_true_iff in Hok. destruct Hok as [Hok Hhi].
  apply andb_true_iff in Hok. destruct Hok as [Hlo Hle].
  lia.
Qed.

Lemma emittedComments_in_range (run : ReviewRun) (lineCount : Z)
      (results : list PersonaResult) :
  Forall (fun c => 0 <= start_line c <= end_line c /\ end_line c < lineCount)
         (emittedComments run lineCount results).
Proof.
  unfold emittedComments. induction results as [| pr results IH]; simpl; [constructor |].
  apply List.Forall_app. split; [apply personaComments_in_range | exact IH].
Qed.

Lemma filter_idempotent {A : Type} (f : A -> bool) (l : list A) :
  List.filter f (List.filter f l) = List.filter f l.
Proof.
  induction l as [| x l IH]; simpl; [reflexivity |].
  destruct (f x) eqn:Hx; simpl; [rewrite Hx; now f_equal | exact IH].
Qed.

(** Reporting only the comments the completion client keeps gives the
    same comments, strands and terminal events. *)
Lemma personaComments_of_kept (run : ReviewRun) (lineCount : Z) (pr : PersonaResult) :
  personaComments run lineCount
    (fst pr, option_map (completePersona lineCount) (snd pr)) =
  personaComments run lineCount pr.
Proof.
  destruct pr as [p [reported |]]; [| reflexivity].
  unfold personaComments, completePersona. simpl. now rewrite filter_idempotent.
Qed.

Lemma emittedComments_of_kept (run : ReviewRun) (lineCount : Z)
      (results : list PersonaResult) :
  emittedComments run lineCount
    (map (fun pr => (fst pr, option_map (completePersona lineCount) (snd pr))) results) =
  emittedComments run lineCount results.
Proof.
  unfold emittedComments. induction results as [| pr results IH]; [reflexivity |].
  cbn [map flat_map]. now rewrite personaComments_of_kept, IH.
Qed.

Lemma allFailed_of_kept (lineCount : Z) (results : list PersonaResult) :
  forallb (fun pr : PersonaResult => match snd pr with Some _ => false | None => true end)
          (map (fun pr => (fst pr, option_map (completePersona lineCount) (snd pr)))
               results) =
  forallb (fun pr : PersonaResult => match snd pr with Some _ => false | None => true end)
          results.
Proof.
  induction results as [| [p [r |]] results IH]; simpl; auto.
Qed.

Lemma reviewStrands_of_kept (run : ReviewRun) (lineCount : Z)
      (results : list PersonaResult) :
  reviewStrands run lineCount
    (map (fun pr => (fst pr, option_map (completePersona lineCount) (snd pr))) results) =
  reviewStrands run lineCount results /\
  terminalEvents run lineCount
    (map (fun pr => (fst pr, option_map (completePersona lineCount) (snd pr))) results) =
  terminalEvents run lineCount results.
Proof.
  split.
  - unfold reviewStrands. induction results as [| pr results IH]; [reflexivity |].
    cbn [map flat_map]. rewrite IH. unfold commentStrand.
    rewrite personaComments_of_kept.
    destruct pr as [p [reported |]]; reflexivity.
  - unfold terminalEvents.
    now rewrite emittedComments_of_kept, allFailed_of_kept.
Qed.

(** ** What the page shows of a review stream *)

Lemma consume_comments_flat (evs : list StreamEvent) (s : PageState) :
  comments (consume evs s) =
  (comments s ++
   flat_map (fun ev => if String.eqb (ev_type ev) "comment"
                       then match ev_comment ev with Some c => [c] | None => [] end
                       else []) evs)%list.
Proof.
  induction evs as [| ev evs IH] using rev_ind; simpl.
  - now rewrite app_nil_r.
  - rewrite consume_snoc, onEvent_comments, IH, flat_map_app. simpl.
    now rewrite app_nil_r, app_assoc.
Qed.

Lemma comments_of_commentEvents (cs : list Comment) :
  flat_map (fun ev => if String.eqb (ev_type ev) "comment"
                      then match ev_comment ev with Some c => [c] | None => [] end
                      else []) (map commentEvent cs) = cs.
Proof. induction cs as [| c cs IH]; simpl; [reflexivity | now f_equal]. Qed.

Lemma comments_of_strands (run : ReviewRun) (lineCount : Z)
      (results : list PersonaResult) :
  flat_map (fun ev => if String.eqb (ev_type ev) "comment"
                      then match ev_comment ev with Some c => [c] | None => [] end
                      else []) (concat (reviewStrands run lineCount results)) =
  emittedComments run lineCount results.
Proof.
  unfold reviewStrands, emittedComments.
  induction results as [| pr results IH]; [reflexivity |].
  cbn [flat_map app concat]. rewrite !flat_map_app, IH.
  unfold commentStrand. rewrite comments_of_commentEvents. reflexivity.
Qed.

Lemma comments_of_terminalEvents (run : ReviewRun) (lineCount : Z)
      (results : list PersonaResult) :
  flat_map (fun ev => if String.eqb (ev_type ev) "comment"
                      then match ev_comment ev with Some c => [c] | None => [] end
                      else []) (terminalEvents run lineCount results) = [].
Proof.
  unfold terminalEvents.
  match goal with |- context [forallb ?f results] => destruct (forallb f results) end;
    reflexivity.
Qed.

(** The comments of the page after a review stream are the emitted
    comments, in the order the stream interleaved them. *)
Lemma comments_of_ReviewStream (run : ReviewRun) (lineCount : Z)
      (results : list PersonaResult) (evs : list StreamEvent) (s : PageState) :
  ReviewStream run lineCount results evs ->
  Permutation (comments (consume evs (doReview_reset s)))
              (emittedComments run lineCount results).
Proof.
  intros (body & Hbody & ->).
  rewrite consume_comments_flat. simpl.
  rewrite flat_map_app, comments_of_terminalEvents, app_nil_r.
  rewrite <- comments_of_strands.
  apply Permutation_flat_map, Interleaving_perm, Hbody.
Qed.

(** C1.  A persona's completion call reports comments; the completion
    client keeps those with [0 <= start_line <= end_line < number of
    lines] and drops the others, and the orchestrator emits a [comment]
    event for each kept one (the lines are those of the document the page
    shows).  So on the page, after any stream the review
    may produce, the comments are exactly the kept ones, every comment in
    the list and every comment displayed has its range within the
    document, and every highlight of every rendered row belongs to such a
    comment: a comment reported out of bounds or inverted is neither
    listed nor highlighted, and the stream is one the review could have
    produced had the persona never reported it. *)
Theorem invalid_range_comment_never_surfaced
        (run : ReviewRun) (results : list PersonaResult) (evs : list StreamEvent)
        (s : PageState) (d : Document) :
  document s = Some d ->
  ReviewStream run (Z.of_nat (length (contentLines d))) results evs ->
  Permutation (comments (consume evs (doReview_reset s)))
              (emittedComments run (Z.of_nat (length (contentLines d))) results) /\
  Forall (fun c => 0 <= start_line c <= end_line c /\ end_line c < Z.of_nat (length (contentLines d)))
         (comments (consume evs (doReview_reset s))) /\
  Forall (fun c => 0 <= start_line c <= end_line c /\ end_line c < Z.of_nat (length (contentLines d)))
         (displayedComments (render (consume evs (doReview_reset s)))) /\
  Forall (Forall (fun h =>
                    exists c, In c (comments (consume evs (doReview_reset s))) /\
                              h = mkHighlight (c_id c) (persona_color c) /\
                              0 <= start_line c <= end_line c /\
                                end_line c < Z.of_nat (length (contentLines d))))
         (displayedHighlights (render (consume evs (doReview_reset s)))) /\
  (forall reported rc,
      In rc reported ->
      (In rc (completePersona (Z.of_nat (length (contentLines d))) reported) <->
       0 <= reported_start_line rc <= reported_end_line rc /\
         reported_end_line rc < Z.of_nat (length (contentLines d)))) /\
  ReviewStream run (Z.of_nat (length (contentLines d)))
    (map (fun pr => (fst pr,
                     option_map (completePersona (Z.of_nat (length (contentLines d))))
                                (snd pr))) results)
    evs.
Proof.
  intros Hdoc Hstream.
  pose proof (comments_of_ReviewStream _ _ _ _ s Hstream) as Hperm.
  assert (Hvalid : Forall (fun c => 0 <= start_line c <= end_line c /\
                                      end_line c < Z.of_nat (length (contentLines d)))
                          (comments (consume evs (doReview_reset s)))).
  { eapply Permutation_Forall; [symmetry; exact Hperm |].
    apply emittedComments_in_range. }
  destruct (consume_viewMode evs (doReview_reset s))
    as (Hmode & Herr & Hdoc' & _ & _).
  simpl in Hmode, Herr, Hdoc'. rewrite Hdoc in Hdoc'.
  split; [exact Hperm |]. split; [exact Hvalid |].
  rewrite List.Forall_forall in Hvalid.
  split; [| split; [| split]].
  - unfold render. destruct (truthy (error (consume evs (doReview_reset s))));
      [constructor |].
    rewrite Hdoc'. unfold renderPanel. rewrite Hmode. simpl.
    apply List.Forall_forall. intros c Hc. apply Hvalid.
    apply (Permutation_in _ (Array_sort_perm start_line _)) in Hc.
    now apply filter_In in Hc.
  - unfold render. destruct (truthy (error (consume evs (doReview_reset s))));
      [constructor |].
    rewrite Hdoc'. simpl. unfold renderLines. rewrite map_imap. simpl.
    apply Forall_imap_In. intros idx line _.
    rewrite lineHighlights_individual by (left; exact Hmode).
    apply List.Forall_forall. intros h Hh.
    apply in_map_iff in Hh. destruct Hh as (c & <- & Hc).
    apply filter_In in Hc. destruct Hc as [Hc _].
    apply filter_In in Hc. destruct Hc as [Hc _].
    exists c. split; [exact Hc |]. split; [reflexivity | now apply Hvalid].
  - intros reported rc Hin. unfold completePersona. rewrite filter_In.
    unfold rangeAccepted. rewrite !andb_true_iff, !Z.leb_le, Z.ltb_lt.
    tauto.
  - destruct Hstream as (body & Hbody & ->).
    destruct (reviewStrands_of_kept run (Z.of_nat (length (contentLines d))) results)
      as [Hstrands Hterminal].
    exists body. now rewrite Hstrands, Hterminal.
Qed.

(** ** The status map after a review stream *)

Lemma no_status_in_comments (pid : option string) (cs : list Comment) :
  List.filter (statusEventFor pid) (map commentEvent cs) = [].
Proof. induction cs as [| c cs IH]; simpl; [reflexivity | exact IH]. Qed.

Lemma statusEventFor_statusEvent (p : string) (persona : Persona) (st : RunStatus) :
  statusEventFor (Some p) (statusEvent persona st) = bool_decide (p_id persona = p).
Proof.
  unfold statusEventFor, statusEvent. simpl.
  apply bool_decide_ext. split; [now intros [= ->] | now intros ->].
Qed.

Lemma no_status_of_others (run : ReviewRun) (lineCount : Z) (p : string)
      (results : list PersonaResult) :
  (forall pr, In pr results -> p_id (fst pr) <> p) ->
  Forall (eq [])
         (map (List.filter (statusEventFor (Some p)))
              (reviewStrands run lineCount results)).
Proof.
  unfold reviewStrands.
  induction results as [| pr results IH]; intros Hother; [constructor |].
  cbn [flat_map app map].
  constructor; [| constructor; [| apply IH; intros pr' Hin; apply Hother; now right]].
  - unfold statusStrand. cbn [List.filter].
    rewrite !statusEventFor_statusEvent.
    rewrite bool_decide_eq_false_2; [reflexivity |].
    apply Hother. now left.
  - unfold commentStrand. now rewrite no_status_in_comments.
Qed.

Lemma statuses_of_ReviewStream (run : ReviewRun) (lineCount : Z)
      (results : list PersonaResult) (evs : list StreamEvent) (pr : PersonaResult) :
  ReviewStream run lineCount results evs ->
  List.NoDup (map (fun pr => p_id (fst pr)) results) ->
  In pr results ->
  List.filter (statusEventFor (Some (p_id (fst pr)))) evs = statusStrand pr.
Proof.
  intros (body & Hbody & ->) Hnd Hin.
  apply in_split in Hin. destruct Hin as (r1 & r2 & ->).
  rewrite map_app in Hnd. cbn [map] in Hnd.
  pose proof (NoDup_remove_2 _ _ _ Hnd) as Hfresh.
  assert (Hothers : forall pr', In pr' (r1 ++ r2)%list -> p_id (fst pr') <> p_id (fst pr)).
  { intros pr' Hin Heq. apply Hfresh. rewrite <- Heq, <- map_app.
    now apply (in_map (fun pr => p_id (fst pr))). }
  rewrite List.filter_app.
  assert (Hterminal : List.filter (statusEventFor (Some (p_id (fst pr))))
                                   (terminalEvents run lineCount (r1 ++ pr :: r2)%list)
                       = []).
  { unfold terminalEvents.
    match goal with |- context [forallb ?f ?l] => destruct (forallb f l) end;
      reflexivity. }
  rewrite Hterminal, app_nil_r.
  apply (Interleaving_filter (statusEventFor (Some (p_id (fst pr))))) in Hbody.
  rewrite reviewStrands_app, map_app in Hbody. cbn [map] in Hbody.
  apply Interleaving_single in Hbody.
  - rewrite Hbody. unfold statusStrand. cbn [List.filter].
    rewrite !statusEventFor_statusEvent.
    now rewrite bool_decide_eq_true_2.
  - apply no_status_of_others. intros pr' Hin. apply Hothers.
    apply in_or_app. now left.
  - constructor.
    + unfold commentStrand. now rewrite no_status_in_comments.
    + apply no_status_of_others. intros pr' Hin. apply Hothers.
      apply in_or_app. now right.
Qed.

Lemma known_statuses_of_ReviewStream (run : ReviewRun) (lineCount : Z)
      (results : list PersonaResult) (evs : list StreamEvent) :
  ReviewStream run lineCount results evs ->
  Forall (fun ev => ev_type ev = "persona_status" ->
                    In (ev_status ev)
                       [Some "queued"; Some "running"; Some "completed"; Some "failed"])
         evs.
Proof.
  intros (body & Hbody & ->).
  apply List.Forall_app. split.
  - eapply Permutation_Forall; [symmetry; apply Interleaving_perm, Hbody |].
    apply Forall_concat. unfold reviewStrands. clear Hbody.
    induction results as [| pr results IH]; [constructor |].
    cbn [flat_map app].
    constructor; [| constructor; [| exact IH]].
    + unfold statusStrand, terminalStatus.
      destruct (snd pr); repeat constructor; intros _; simpl; auto.
    + unfold commentStrand. apply List.Forall_forall. intros ev Hev.
      apply in_map_iff in Hev. destruct Hev as (c & <- & _). discriminate.
  - unfold terminalEvents.
    match goal with |- context [forallb ?f results] => destruct (forallb f results) end;
      repeat constructor; discriminate.
Qed.

(** C6.  The status map of the page holds, for each persona id, the
    record of the most recent [persona_status] event for that id, with the
    name, colour and status that event carried, whatever the status is
    (and what it held before when there is none); so a status event that
    no later status event for the persona follows is what the map shows,
    [failed] like any other.  Every [persona_status] event of a review
    stream carries one of queued, running, completed and failed, and after
    the stream the map shows each requested persona as completed when its
    call returned and as failed when its call errored. *)
Theorem personaStatuses_records_latest (s : PageState) (p : string) :
  (forall evs,
      personaStatuses (consume evs s) !! Some p =
      match List.find (statusEventFor (Some p)) (rev evs) with
      | Some ev => Some (mkPersonaStatus (Some p) (ev_persona_name ev)
                                         (ev_persona_color ev) (ev_status ev))
      | None => personaStatuses s !! Some p
      end) /\
  (forall before after name color status,
      Forall (fun ev => ev_type ev = "persona_status" -> ev_persona_id ev <> Some p)
             after ->
      personaStatuses
        (consume (before ++ personaStatusEvent p name color status :: after)%list s)
        !! Some p
      = Some (mkPersonaStatus (Some p) (Some name) (Some color) (Some status))) /\
  (forall run lineCount results evs,
      ReviewStream run lineCount results evs ->
      Forall (fun ev => ev_type ev = "persona_status" ->
                        In (ev_status ev)
                           [Some "queued"; Some "running"; Some "completed";
                            Some "failed"])
             evs /\
      (List.NoDup (map (fun pr => p_id (fst pr)) results) ->
       forall pr, In pr results -> p_id (fst pr) = p ->
         personaStatuses (consume evs (doReview_reset s)) !! Some p =
         Some (mkPersonaStatus (Some p) (Some (p_name (fst pr)))
                               (Some (p_color (fst pr)))
                               (Some (match snd pr with
                                      | Some _ => "completed"
                                      | None => "failed"
                                      end))))).
Proof.
  split; [| split].
  - intros evs. rewrite consume_personaStatuses.
    destruct (List.find (statusEventFor (Some p)) (rev evs)) as [ev |] eqn:Hfind;
      [| reflexivity].
    apply find_some in Hfind. destruct Hfind as [_ Hfor].
    unfold statusEventFor in Hfor. apply andb_true_iff in Hfor.
    destruct Hfor as [_ Hid]. apply bool_decide_eq_true in Hid.
    unfold statusOfEvent. now rewrite Hid.
  - intros before after name color status Hafter.
    rewrite consume_personaStatuses.
    rewrite rev_app_distr. simpl. rewrite <- app_assoc, find_app_first.
    rewrite find_none_Forall.
    + simpl. unfold statusEventFor. simpl.
      rewrite bool_decide_eq_true_2 by reflexivity. reflexivity.
    + apply Forall_rev. eapply List.Forall_impl; [| exact Hafter].
      intros ev Hev. unfold statusEventFor.
      destruct (String.eqb_spec (ev_type ev) "persona_status") as [Hty | Hty];
        [| reflexivity].
      simpl. apply bool_decide_eq_false_2. now apply Hev.
  - intros run lineCount results evs Hstream.
    split; [now apply (known_statuses_of_ReviewStream run lineCount results) |].
    intros Hnd pr Hin <-.
    pose proof (statuses_of_ReviewStream _ _ _ _ pr Hstream Hnd Hin) as Hstatuses.
    rewrite consume_personaStatuses.
    rewrite (find_rev_last _ _ [statusEvent (fst pr) StQueued;
                                statusEvent (fst pr) StRunning]
                           (statusEvent (fst pr) (terminalStatus pr)) Hstatuses).
    unfold terminalStatus. now destruct (snd pr).
Qed.

Lemma invalid_range_comment_never_surfaced_witness :
  Forall (fun c => 0 <= start_line c <= end_line c /\
                     end_line c < Z.of_nat (length (contentLines eightLines)))
         (comments
            (consume
               (sequentialStream sampleRun (Z.of_nat (length (contentLines eightLines)))
                                 sampleResults)
               (doReview_reset (setDocument (Some eightLines) initialState)))).
Proof.
  refine (proj1 (proj2
    (invalid_range_comment_never_surfaced sampleRun sampleResults _
       (setDocument (Some eightLines) initialState) eightLines _ _))).
  - reflexivity.
  - apply sequentialStream_ReviewStream.
Defined.

(** The editor's comment on line 15 of the eight-line document is dropped
    and its comment on line 2 is shown; the architect, whose call failed,
    has no comment. *)
Example out_of_bounds_report_is_dropped :
  comments (consume (sequentialStream sampleRun 8 sampleResults) reviewing) =
  [mkComment "editor-1" "Tighten the intro" "editor" "Supportive Editor" "#22c55e"
             2 2 "2026-01-05"] /\
  displayedHighlights
    (render (consume (sequentialStream sampleRun 8 sampleResults) reviewing)) =
  [[]; []; [mkHighlight "editor-1" "#22c55e"]; []; []; []; []; []].
Proof. split; vm_compute; reflexivity. Qed.

Lemma personaStatuses_records_latest_witness :
  personaStatuses
    (consume (sequentialStream sampleRun 8 sampleResults) (doReview_reset reviewing))
    !! Some "architect"
  = Some (mkPersonaStatus (Some "architect") (Some "Technical Architect")
                          (Some "#3b82f6") (Some "failed")).
Proof.
  refine (proj2 (proj2 (proj2 (personaStatuses_records_latest reviewing "architect"))
                       sampleRun 8 sampleResults _
                       (sequentialStream_ReviewStream _ _ _))
                _ (architectPersona, None) _ _).
  - repeat constructor; simpl; intuition discriminate.
  - right. left. reflexivity.
  - reflexivity.
Defined.

(** A status other than [failed] is recorded the same way: with the
    editor's [running] event last, the map shows the editor running. *)
Example latest_status_is_recorded :
  personaStatuses
    (consume [statusEvent editorPersona StQueued; statusEvent architectPersona StQueued;
              statusEvent editorPersona StRunning; statusEvent architectPersona StFailed]
             reviewing) !! Some "editor"
  = Some (mkPersonaStatus (Some "editor") (Some "Supportive Editor") (Some "#22c55e")
                          (Some "running")).
Proof. vm_compute. reflexivity. Qed.
